(** * esntorch.core.esn: the Echo State Network orchestration layer

    A shallow embedding of [src/esntorch/core/esn.py] (class
    [EchoStateNetwork]) and the properties of its training dispatch, its
    directional pooling, its two trainers and its prediction aggregator.

    Conventions of the embedding.
    - Python exceptions are values of [exn]; a computation that may raise
      returns a [result].  Code that also touches mutable objects runs in
      the monad [M], which threads a [world]: the store of 3-D state
      tensors (the only objects this file writes in place), the readout
      weights, and the trace of calls made to the collaborators.
    - A floating-point number is an IEEE 754 binary number as the
      standard library specifies it ([spec_float]): a zero, an infinity,
      nan, or a sign, a mantissa and an exponent.  Float tensors hold
      float32 numbers (precision 24), a Python float is a float64
      (precision 53); on the numbers of a format the comparisons of
      [SpecFloat] are those of IEEE 754.  Integer tensors hold [Z].
    - How [torch.mean] rounds depends on the kernel that runs (the order
      of the additions, a division by the count or a product with its
      inverse); the average of the values of one column is therefore a
      field of the device ([torch.device]), and nothing is assumed of it.
    - The collaborators (encoder layer, pooling reduction, readout
      algorithm, criterion, optimizer) live in other files of the
      package; they are the fields of the records of modules [res], [ms]
      and [la], and are assumed to return normally.
    - [tqdm_notebook] only decorates an iterator and is left out. *)

From Stdlib Require Import ZArith List String Lia.
From Stdlib Require Import Floats.SpecFloat.
From stdpp Require Import gmap strings list.

Local Open Scope Z_scope.

(** ** Exceptions and results *)

Inductive exn : Type :=
| KeyError (key : string)
| AttributeError (name : string)
| UnboundLocalError (var : string)
| TypeError
| IndexError
| RuntimeError
| ZeroDivisionError.

Definition result (A : Type) : Type := exn + A.

#[global] Instance result_ret : MRet result := fun A x => inr x.
#[global] Instance result_bind : MBind result :=
  fun A B f m => match m with inl e => inl e | inr x => f x end.

#[global] Instance result_fmap : FMap result :=
  fun A B f m => match m with inl e => inl e | inr x => inr (f x) end.

Definition throw {A : Type} (e : exn) : result A := inl e.

(** ** Tensors *)

Abbreviation Tensor1 := (list spec_float) (only parsing).
Abbreviation Tensor2 := (list (list spec_float)) (only parsing).
Abbreviation Tensor3 := (list (list (list spec_float))) (only parsing).

(** What a batch field or a local variable can hold. *)
Inductive value : Type :=
| VNone
| VLabels (l : list Z)            (* 1-D integer tensor *)
| VTokens (t : list (list Z))     (* 2-D integer tensor *)
| VFeatures (f : Tensor2).        (* 2-D float tensor *)

(** The two wire shapes of a batch: a mapping read with [batch[key]], or
    an object read with [batch.name]. *)
Inductive batch : Type :=
| Keyed (d : gmap string value)
| Attributed (a : gmap string value).

(** [batch_text]: the batch itself (Keyed) or its [text] field. *)
Inductive text : Type :=
| TextBatch (b : batch)
| TextValue (v : value).

(** An optional trailing argument of a call: left out, or passed. *)
Inductive opt_arg : Type :=
| Omitted
| Passed (v : value).

(** The raw outputs of the readout: a float32 tensor with [dim() = 1]
    or [dim() = 2], or an int64 tensor of class ids with [dim() = 1]. *)
Inductive raw : Type :=
| Raw1 (v : Tensor1)
| Raw2 (m : Tensor2)
| RawIds (ids : list Z).

(** The target handed to the criterion: class indices or one-hot rows. *)
Inductive target : Type :=
| ClassIdx (l : list Z)
| OneHot (m : list (list Z)).

(** ** Python built-ins on batches and values *)

(** [batch[key]] *)
Definition getitem (b : batch) (key : string) : result value :=
  match b with
  | Keyed d => match d !! key with Some v => mret v | None => throw (KeyError key) end
  | Attributed _ => throw TypeError
  end.

(** [batch.name] *)
Definition getattr (b : batch) (name : string) : result value :=
  match b with
  | Attributed a => match a !! name with Some v => mret v | None => throw (AttributeError name) end
  | Keyed _ => throw (AttributeError name)
  end.

(** [key in batch.keys()] *)
Definition has_key (b : batch) (key : string) : result bool :=
  match b with
  | Keyed d => mret (bool_decide (is_Some (d !! key)))
  | Attributed _ => throw (AttributeError "keys")
  end.

(** [v.to(device)]: a tensor is returned unchanged, [None] has no [to]. *)
Definition to_device (v : value) : result value :=
  match v with
  | VNone => throw (AttributeError "to")
  | _ => mret v
  end.

(** [v.type(torch.int64)] for a label object.  The embedding follows
    label tensors only: one integer per sequence, which the cast leaves
    as it is.  torch casts every other tensor as well; what the code
    does with labels of another rank is outside the embedding, and is
    marked by [TypeError]. *)
Definition type_int64 (v : value) : result (list Z) :=
  match v with
  | VNone => throw (AttributeError "type")
  | VLabels l => mret l
  | _ => throw TypeError
  end.

(** A label tensor used as such without a cast. *)
Definition label_tensor (v : value) : result (list Z) :=
  match v with
  | VLabels l => mret l
  | _ => throw TypeError
  end.

(** [float(n)] for a Python int: the nearest float64, a tie going to
    the even mantissa.  (Python raises on an int beyond the range of
    float64; the counts of this file are far below.) *)
Definition float (n : Z) : spec_float := binary_normalize 53 1024 n 0 false.

(** [x / y] on Python floats. *)
Definition truediv (x y : spec_float) : result spec_float :=
  match y with
  | S754_zero _ => throw ZeroDivisionError
  | _ => mret (SFdiv 53 1024 x y)
  end.

(** Reading a local variable that may not have been assigned. *)
Definition read_local {A : Type} (var : string) (x : option A) : result A :=
  match x with
  | Some v => mret v
  | None => throw (UnboundLocalError var)
  end.

(** ** The part of torch that the file uses *)

Module torch.

(** A device, as far as this file depends on it: the kernel that
    averages the values of one column of a float32 tensor. *)
Record device : Type := { mean : list spec_float -> spec_float }.

Definition nan : spec_float := S754_nan.

(** [x.size(1)]; a tensor without rows is taken to have no columns. *)
Definition size1 {A : Type} (x : list (list A)) : nat :=
  match x with
  | r :: _ => length r
  | [] => 0%nat
  end.

(** [torch.flip(x, [0])] on the rows of a 2-D tensor. *)
Definition flip0 (x : Tensor2) : Tensor2 := rev x.

(** [x[:l] = torch.flip(x[:l], [0])] on the time rows of one sequence. *)
Definition flip_prefix (l : nat) (x : Tensor2) : Tensor2 :=
  flip0 (take l x) ++ drop l x.

Definition same_length {A B : Type} (x : list A) (y : list B) : bool :=
  Nat.eqb (length x) (length y).

Fixpoint same_shape2 {A B : Type} (x : list (list A)) (y : list (list B)) : bool :=
  match x, y with
  | [], [] => true
  | r :: x', s :: y' => same_length r s && same_shape2 x' y'
  | _, _ => false
  end.

(** [torch.cat([x, y], dim=1)] on 2-D tensors. *)
Definition cat_dim1 (x y : Tensor2) : result Tensor2 :=
  if same_length x y then mret (zip_with app x y) else throw RuntimeError.

(** [torch.cat([x, y], dim=2)] on 3-D tensors. *)
Definition cat_dim2 (x y : Tensor3) : result Tensor3 :=
  if same_shape2 x y then mret (zip_with (zip_with app) x y) else throw RuntimeError.

Definition rectangular {A : Type} (x : list (list A)) : bool :=
  match x with
  | [] => true
  | r :: x' => forallb (same_length r) x'
  end.

(** [torch.cat(l, dim=0)] on a list of 2-D tensors. *)
Definition cat_dim0 (l : list Tensor2) : result Tensor2 :=
  match l with
  | [] => throw RuntimeError
  | _ => if rectangular (concat l) then mret (concat l) else throw RuntimeError
  end.

(** [torch.cat(l, dim=0)] on a list of 1-D integer tensors. *)
Definition cat_int (l : list (list Z)) : result (list Z) :=
  match l with
  | [] => throw RuntimeError
  | _ => mret (concat l)
  end.

(** [torch.cat(l, dim=0)] on the label objects collected by the
    closed-form trainer, which were never cast. *)
Definition cat_labels (l : list value) : result (list Z) :=
  match l with
  | [] => throw RuntimeError
  | _ => ls ← mapM label_tensor l; mret (concat ls)
  end.

(** [x[a:b]] along the first axis, for [0 <= a] and [0 <= b]. *)
Definition slice {A : Type} (a b : nat) (x : list A) : list A :=
  take (b - a) (drop a x).

(** [x[:, j]] *)
Definition column (j : nat) (x : Tensor2) : Tensor1 := map (fun r => nth j r nan) x.

(** [torch.mean(x, dim=0)] on a 2-D tensor of [columns] columns, on the
    device [d]: one average per column, and nan in every column when
    [x] has no row. *)
Definition mean_dim0 (d : device) (columns : nat) (x : Tensor2) : Tensor1 :=
  map (fun j => match x with
                | [] => nan
                | _ => mean d (column j x)
                end)
      (seq 0 columns).

(** [torch.stack(l)] on a list of 1-D tensors. *)
Definition stack (l : list Tensor1) : result Tensor2 :=
  match l with
  | [] => throw RuntimeError
  | _ => if rectangular l then mret l else throw RuntimeError
  end.

(** The comparison of [argmax]: is [x] above [best]?  Two numbers are
    compared as IEEE 754 says; nan is above every number, and nothing
    is above nan. *)
Definition above (x best : spec_float) : bool :=
  match best, x with
  | S754_nan, _ => false
  | _, S754_nan => true
  | _, _ => SFltb best x
  end.

(** The scan behind [argmax]: [i] is the position of [best], the
    largest entry seen so far; [j] is the position of the head of [v].
    Only an entry above [best] replaces it. *)
Fixpoint argmax_scan (i : nat) (best : spec_float) (j : nat) (v : Tensor1) : nat :=
  match v with
  | [] => i
  | x :: v' =>
      if above x best then argmax_scan j x (S j) v' else argmax_scan i best (S j) v'
  end.

(** [v.argmax()] on a 1-D tensor: the index of the first maximal value. *)
Definition argmax (v : Tensor1) : result nat :=
  match v with
  | [] => throw IndexError
  | x :: v' => mret (argmax_scan 0%nat x 1%nat v')
  end.

(** [x.argmax(dim=1)] on a 2-D tensor. *)
Definition argmax_dim1 (x : Tensor2) : result (list Z) :=
  mapM (fun r => Z.of_nat <$> argmax r) x.

(** [.float()] on an element of an int64 tensor: the nearest float32,
    a tie going to the even mantissa.  On a float32 tensor [.float()]
    changes nothing. *)
Definition float (z : Z) : spec_float := binary_normalize 24 128 z 0 false.

(** The integer part of a number: the fraction is dropped. *)
Definition trunc (s : bool) (m : positive) (e : Z) : Z := cond_Zopp s (Z.shiftl (Zpos m) e).

(** The floats that have a value in int64. *)
Definition castable (x : spec_float) : bool :=
  match x with
  | S754_zero _ => true
  | S754_finite s m e => (- 2 ^ 63 <=? trunc s m e) && (trunc s m e <? 2 ^ 63)
  | _ => false
  end.

(** [.type(torch.int64)] on an element of a float tensor: the integer
    part.  The cast of the other floats (nan, the infinities, the
    numbers outside the range of int64) is not defined by C++; the
    value taken here, [- 2 ^ 63], is the one that x86 gives. *)
Definition to_int64 (x : spec_float) : Z :=
  match x with
  | S754_zero _ => 0
  | S754_finite s m e => if castable x then trunc s m e else - 2 ^ 63
  | _ => - 2 ^ 63
  end.

(** [torch.nn.functional.one_hot(labels)]: as many classes as the
    largest label plus one; negative labels are refused. *)
Definition one_hot (labels : list Z) : result (list (list Z)) :=
  match labels with
  | [] => throw RuntimeError
  | _ =>
      if forallb (Z.leb 0) labels then
        let n := Z.to_nat (fold_right Z.max 0 labels + 1) in
        mret (map (fun c => map (fun k => if Z.eqb (Z.of_nat k) c then 1 else 0) (seq 0 n)) labels)
      else throw RuntimeError
  end.

(** [(predictions == labels).sum()], with the broadcasting of a
    one-element operand. *)
Definition eq_sum (predictions labels : list Z) : result Z :=
  let count x y := Z.of_nat (length (filter (fun p => Z.eqb (fst p) (snd p)) (zip x y))) in
  match predictions, labels with
  | [p], _ => mret (count (replicate (length labels) p) labels)
  | _, [l] => mret (count predictions (replicate (length predictions) l))
  | _, _ =>
      if same_length predictions labels then mret (count predictions labels)
      else throw RuntimeError
  end.

End torch.

(** ** The collaborators *)

(** [esntorch.utils.matrix] *)
Module mat.

(** Modelled from the spec: [duplicate_labels] is defined in
    [esntorch/utils/matrix.py].  Section 3, invariant 1: exactly
    [lengths[i]] copies of the label of sequence [i], in the row order
    of its token states. *)
Definition duplicate_labels (labels : list Z) (lengths : list nat) : list Z :=
  concat (zip_with (fun label n => replicate n label) labels lengths).

End mat.

(** [esntorch.core.reservoir]: the encoder held in [self.layer]. *)
Module res.

Record Layer : Type := {
  (** [callable(self.layer.embedding)] *)
  embedding_callable : bool;
  (** [self.layer.forward(batch_text)]: states and true lengths *)
  forward : text -> Tensor3 * list nat;
  (** [self.layer.reverse_forward(batch_text)] *)
  reverse_forward : text -> Tensor3 * list nat
}.

End res.

(** [esntorch.core.merging_strategy]: the pooling reduction. *)
Module ms.

Record MergingStrategy : Type := {
  (** the tag; [None] means that no pooling is done *)
  merging_strategy : option string;
  (** [self.merging_strategy(states, lengths, texts[, additional_fts])] *)
  call : option Tensor3 -> list nat -> text -> opt_arg -> Tensor2
}.

End ms.

(** [esntorch.core.learning_algo]: the readout algorithms.  [W] is the
    type of the trained state (readout parameters, optimizer state). *)
Module la.

Definition RidgeRegression : string := "RidgeRegression".
Definition RidgeRegression_skl : string := "RidgeRegression_skl".
Definition LogisticRegression_skl : string := "LogisticRegression_skl".
Definition LinearSVC : string := "LinearSVC".

Record LearningAlgo (W : Type) : Type := {
  (** the classes of the instance, most derived first *)
  mro : list string;
  (** [self.learning_algo.fit(states, labels)] *)
  fit : W -> Tensor2 -> list Z -> W;
  (** [self.learning_algo(states)] *)
  call : W -> Tensor2 -> raw
}.
Arguments mro {W}.
Arguments fit {W}.
Arguments call {W}.

End la.

(** [isinstance(obj, cls)] for an attribute that may be [None]. *)
Definition isinstance {W : Type} (obj : option (la.LearningAlgo W)) (cls : string) : bool :=
  match obj with
  | None => false
  | Some a => bool_decide (cls ∈ la.mro a)
  end.

(** [torch.nn] losses, as far as the file tells them apart. *)
Inductive loss_class : Type :=
| MultiLabelSoftMarginLoss
| BCEWithLogitsLoss
| OtherLoss.

Record Criterion : Type := {
  loss_cls : loss_class;
  (** [self.criterion(outputs, labels)] *)
  loss_call : raw -> target -> spec_float
}.

Record Optimizer (W : Type) : Type := {
  (** [zero_grad(); loss.backward(); step()] for the loss of the merged
      states and the target under the current weights *)
  update : W -> Tensor2 -> target -> W
}.
Arguments update {W}.

(** ** The world and the monad *)

(** What the code prints (line breaks left out). *)
Inductive message : Type :=
| Text (s : string)
| IterationLoss (iteration : Z) (loss : spec_float)
| Accuracy (accuracy : option spec_float).

(** The calls that leave the file. *)
Inductive event : Type :=
| Forward (batch_text : text)
| ReverseForward (batch_text : text)
| Merge (states : option Tensor3) (lengths : list nat) (texts : text) (additional_fts : opt_arg)
| Fit (states : Tensor2) (labels : list Z)
| Print (m : message).

Abbreviation ref := nat (only parsing).

Section Esn.

Context {W : Type}.

Record world : Type := {
  heap : list Tensor3;
  weights : W;
  trace : list event
}.

Definition M (A : Type) : Type := world -> result A * world.

#[global] Instance M_ret : MRet M := fun A x w => (inr x, w).
#[global] Instance M_bind : MBind M :=
  fun A B f m w =>
    match m w with
    | (inl e, w') => (inl e, w')
    | (inr x, w') => f x w'
    end.

#[global] Instance M_fmap : FMap M :=
  fun A B f m w =>
    match m w with
    | (inl e, w') => (inl e, w')
    | (inr x, w') => (inr (f x), w')
    end.

Definition lift {A : Type} (r : result A) : M A := fun w => (r, w).
Definition raise {A : Type} (e : exn) : M A := lift (throw e).

Definition alloc (t : Tensor3) : M ref :=
  fun w => (inr (length (heap w)),
            {| heap := heap w ++ [t]; weights := weights w; trace := trace w |}).
Definition load (r : ref) : M Tensor3 :=
  fun w => (inr (default [] (heap w !! r)), w).
Definition store (r : ref) (t : Tensor3) : M unit :=
  fun w => (inr tt, {| heap := <[r := t]> (heap w); weights := weights w; trace := trace w |}).
Definition emit (e : event) : M unit :=
  fun w => (inr tt, {| heap := heap w; weights := weights w; trace := trace w ++ [e] |}).
Definition get_weights : M W := fun w => (inr (weights w), w).
Definition set_weights (x : W) : M unit :=
  fun w => (inr tt, {| heap := heap w; weights := x; trace := trace w |}).
Definition print (m : message) : M unit := emit (Print m).

(** [for x in l: body(x)] *)
Fixpoint for_each {A : Type} (l : list A) (body : A -> M unit) : M unit :=
  match l with
  | [] => mret tt
  | x :: l' => _ ← body x; for_each l' body
  end.

(** [for x in l: acc = body(acc, x)] with the locals of the loop in [acc] *)
Fixpoint for_acc {A S : Type} (l : list A) (body : S -> A -> M S) (acc : S) : M S :=
  match l with
  | [] => mret acc
  | x :: l' => acc' ← body acc x; for_acc l' body acc'
  end.

Definition enumerate {A : Type} (l : list A) : list (nat * A) :=
  zip (seq 0 (length l)) l.

(** ** class EchoStateNetwork *)

Record EchoStateNetwork : Type := {
  (** [self.device]: where the layer, the batches and hence the raw
      outputs are; its kernel runs [torch.mean] *)
  device : torch.device;
  layer : res.Layer;
  merging_strategy : ms.MergingStrategy;
  learning_algo : option (la.LearningAlgo W);
  criterion : option Criterion;
  optimizer : option (Optimizer W);
  bidirectional : bool
}.

Variable self : EchoStateNetwork.

(** [self.layer.forward(batch_text)]; the states are a new tensor. *)
Definition layer_forward (batch_text : text) : M (ref * list nat) :=
  _ ← emit (Forward batch_text);
  let '(states, lengths) := res.forward (layer self) batch_text in
  r ← alloc states;
  mret (r, lengths).

Definition layer_reverse_forward (batch_text : text) : M (ref * list nat) :=
  _ ← emit (ReverseForward batch_text);
  let '(states, lengths) := res.reverse_forward (layer self) batch_text in
  r ← alloc states;
  mret (r, lengths).

(** [self.merging_strategy(states, lengths, texts, ...)] *)
Definition merging_strategy_call (states : option ref) (lengths : list nat)
    (texts : text) (additional_fts : opt_arg) : M Tensor2 :=
  t ← match states with
      | Some r => Some <$> load r
      | None => mret None
      end;
  _ ← emit (Merge t lengths texts additional_fts);
  mret (ms.call (merging_strategy self) t lengths texts additional_fts).

(** [self.learning_algo(states)] *)
Definition learning_algo_call (states : Tensor2) : M raw :=
  match learning_algo self with
  | None => raise TypeError
  | Some a => w ← get_weights; mret (la.call a w states)
  end.

(** [restored_states[i, :l] = torch.flip(restored_states[i, :l], [0])] *)
Definition flip_in_place (restored_states : ref) (il : nat * nat) : M unit :=
  let '(i, l) := il in
  t ← load restored_states;
  match t !! i with
  | None => raise IndexError
  | Some x => store restored_states (<[i := torch.flip_prefix l x]> t)
  end.

(** [reversed_states.clone()] *)
Definition clone (reversed_states : option ref) : M ref :=
  match reversed_states with
  | None => raise (AttributeError "clone")
  | Some r => t ← load r; alloc t
  end.

Definition _apply_pooling_strategy (states : ref) (lengths : list nat) (texts : text)
    (reversed_states : option ref) (additional_fts : value) : M Tensor2 :=
  if bidirectional self then
    match ms.merging_strategy (merging_strategy self) with
    | None =>
        restored_states ← clone reversed_states;
        _ ← for_each (enumerate lengths) (flip_in_place restored_states);
        s ← load states;
        r ← load restored_states;
        c ← lift (torch.cat_dim2 s r);
        concatenated_states ← alloc c;
        merging_strategy_call (Some concatenated_states) lengths texts Omitted
    | Some _ =>
        normal_merged_states ←
          merging_strategy_call (Some states) lengths texts (Passed additional_fts);
        reversed_merged_states ←
          merging_strategy_call reversed_states lengths texts Omitted;
        lift (torch.cat_dim1 normal_merged_states reversed_merged_states)
    end
  else
    merging_strategy_call (Some states) lengths texts (Passed additional_fts).

(** The head of each of the three batch loops (lines 194-203, 263-272
    and 421-430 are the same text): the batch text, the label object
    and the local [additional_fts], which only the first branch
    assigns. *)
Definition read_batch (b : batch) : M (text * value * option value) :=
  if res.embedding_callable (layer self) then
    (* HuggingFace *)
    let batch_text := TextBatch b in
    batch_label ← lift (getitem b "labels" ≫= to_device);
    present ← lift (has_key b "additional_fts");
    additional_fts ←
      (if present : bool then lift (getitem b "additional_fts" ≫= to_device)
       else mret VNone);
    mret (batch_text, batch_label, Some additional_fts)
  else
    (* TorchText *)
    batch_text ← lift (getattr b "text");
    batch_label ← lift (getattr b "label");
    mret (TextValue batch_text, batch_label, None).

(** The two passes through the layer (lines 206-211, 275-280 and
    433-438 are the same text); the lengths of the reverse pass are
    bound to [_]. *)
Definition encode (batch_text : text) : M (ref * list nat * option ref) :=
  '(states, lengths) ← layer_forward batch_text;
  reversed_states ←
    (if bidirectional self then
       '(reversed_states, _) ← layer_reverse_forward batch_text;
       mret (Some reversed_states)
     else mret None);
  mret (states, lengths, reversed_states).

Definition _fit_direct_body (acc : list Tensor2 * list value) (b : batch)
    : M (list Tensor2 * list value) :=
  let '(states_l, labels_l) := acc in
  '(batch_text, batch_label, additional_fts) ← read_batch b;
  '(states, lengths, reversed_states) ← encode batch_text;
  let labels := batch_label in
  labels ←
    match ms.merging_strategy (merging_strategy self) with
    | None => l ← lift (label_tensor labels); mret (VLabels (mat.duplicate_labels l lengths))
    | Some _ => mret labels
    end;
  additional_fts ← lift (read_local "additional_fts" additional_fts);
  final_states ←
    _apply_pooling_strategy states lengths batch_text reversed_states additional_fts;
  mret (states_l ++ [final_states], labels_l ++ [labels]).

(** The loader is the list of batches that one iteration over it
    yields. *)
Definition _fit_direct (train_dataloader : list batch) : M (option (list spec_float)) :=
  _ ← print (Text "Computing closed-form solution...");
  '(states_l, labels_l) ← for_acc train_dataloader _fit_direct_body ([], []);
  all_states ← lift (torch.cat_dim0 states_l);
  all_labels ← lift (torch.cat_labels labels_l);
  _ ← match learning_algo self with
      | None => raise (AttributeError "fit")
      | Some a =>
          w ← get_weights;
          _ ← emit (Fit all_states all_labels);
          set_weights (la.fit a w all_states all_labels)
      end;
  _ ← print (Text "Training complete.");
  mret None.

Definition _fit_GD_body (iter_steps : Z) (acc : list spec_float * Z) (b : batch) : M (list spec_float * Z) :=
  let '(loss_l, n_iter) := acc in
  '(batch_text, batch_label, additional_fts) ← read_batch b;
  '(states, lengths, reversed_states) ← encode batch_text;
  labels ← lift (type_int64 batch_label);
  let labels :=
    match ms.merging_strategy (merging_strategy self) with
    | None => mat.duplicate_labels labels lengths
    | Some _ => labels
    end in
  additional_fts ← lift (read_local "additional_fts" additional_fts);
  final_states ←
    _apply_pooling_strategy states lengths batch_text reversed_states additional_fts;
  outputs ← learning_algo_call final_states;
  labels ←
    match loss_cls <$> criterion self with
    | Some MultiLabelSoftMarginLoss | Some BCEWithLogitsLoss =>
        OneHot <$> lift (torch.one_hot labels)
    | _ => mret (ClassIdx labels)
    end;
  loss ← match criterion self with
         | None => raise TypeError
         | Some c => mret (loss_call c outputs labels)
         end;
  _ ← match optimizer self with
      | None => raise (AttributeError "zero_grad")
      | Some o => w ← get_weights; set_weights (update o w final_states labels)
      end;
  let n_iter := n_iter + 1 in
  if Z.eqb iter_steps 0 then raise ZeroDivisionError
  else if Z.eqb (n_iter mod iter_steps) 0 then
    _ ← print (IterationLoss n_iter loss);
    mret (loss_l ++ [loss], n_iter)
  else mret (loss_l, n_iter).

(** [train_dataloader epoch] is the list of batches that the loader
    yields when it is iterated for the epoch of that number. *)
Definition _fit_GD (train_dataloader : nat -> list batch) (epochs iter_steps : Z)
    : M (option (list spec_float)) :=
  _ ← print (Text "Performing gradient descent...");
  '(loss_l, _) ←
    for_acc (seq 0 (Z.to_nat epochs))
      (fun acc epoch => for_acc (train_dataloader epoch) (_fit_GD_body iter_steps) acc)
      ([], 0);
  _ ← print (Text "Training complete.");
  mret (Some loss_l).

(** The defaults of [fit] are [epochs=1] and [iter_steps=100]. *)
Definition fit (train_dataloader : nat -> list batch) (epochs iter_steps : Z)
    : M (option (list spec_float)) :=
  if isinstance (learning_algo self) la.RidgeRegression
     || isinstance (learning_algo self) la.RidgeRegression_skl
     || isinstance (learning_algo self) la.LogisticRegression_skl
     || isinstance (learning_algo self) la.LinearSVC
  then _fit_direct (train_dataloader 0%nat)
  else _fit_GD train_dataloader epochs iter_steps.

(** [tmp = [0] + [sum(tmp[:i]) for i in range(1, len(tmp) + 1)]] *)
Definition offsets (tmp : list nat) : list nat :=
  0%nat :: map (fun i => sum_list (take i tmp)) (seq 1 (length tmp)).

Definition _compute_predictions (states : Tensor2) (lengths : list nat) : M (list Z) :=
  raw_outputs ← learning_algo_call states;
  match ms.merging_strategy (merging_strategy self) with
  | None =>
      let tmp := lengths in
      let tmp := offsets tmp in
      match raw_outputs with
      | Raw2 raw_outputs =>
          outputs ← lift (torch.stack
            (map (fun i => torch.mean_dim0 (device self) (torch.size1 raw_outputs)
                             (torch.slice (tmp !!! i) (tmp !!! (i + 1)%nat) raw_outputs))
                 (seq 0 (length tmp - 1))));
          lift (torch.argmax_dim1 outputs)
      | Raw1 _ =>
          (* the means are scalars, their stack has no axis 1 *)
          match lengths with
          | [] => raise RuntimeError
          | _ => raise IndexError
          end
      | RawIds _ =>
          (* nothing to stack, or a mean of integers *)
          raise RuntimeError
      end
  | Some _ =>
      match raw_outputs with
      | Raw2 raw_outputs =>
          (* the learning algo returns the probas *)
          outputs ← lift (map torch.float <$> torch.argmax_dim1 raw_outputs);
          mret (map torch.to_int64 outputs)
      | Raw1 raw_outputs =>
          (* the learning algo returns the classes *)
          mret (map torch.to_int64 raw_outputs)
      | RawIds raw_outputs =>
          let outputs := map torch.float raw_outputs in
          mret (map torch.to_int64 outputs)
      end
  end.

(** The locals that the loop of [predict] updates. *)
Record predict_locals : Type := {
  predictions_l : list (list Z);
  correct : Z;
  total : Z;
  testing_mode : bool
}.

(** The [try] block of [predict]; whatever it raises is swallowed, and
    the assignments made before the raise stay. *)
Definition predict_try (predictions : list Z) (batch_label : value) (st : predict_locals)
    : predict_locals :=
  match type_int64 batch_label with
  | inl _ => st
  | inr labels =>
      let total := total st + Z.of_nat (length labels) in
      match torch.eq_sum predictions labels with
      | inl _ =>
          {| predictions_l := predictions_l st; correct := correct st;
             total := total; testing_mode := testing_mode st |}
      | inr n =>
          {| predictions_l := predictions_l st; correct := correct st + n;
             total := total; testing_mode := true |}
      end
  end.

Definition predict_body (st : predict_locals) (b : batch) : M predict_locals :=
  '(batch_text, batch_label, additional_fts) ← read_batch b;
  '(states, lengths, reversed_states) ← encode batch_text;
  additional_fts ← lift (read_local "additional_fts" additional_fts);
  final_states ←
    _apply_pooling_strategy states lengths batch_text reversed_states additional_fts;
  predictions ← _compute_predictions final_states lengths;
  let st := {| predictions_l := predictions_l st ++ [predictions]; correct := correct st;
               total := total st; testing_mode := testing_mode st |} in
  mret (predict_try predictions batch_label st).

Definition predict (dataloader : list batch) (verbose : bool) : M (list Z * option spec_float) :=
  st ← for_acc dataloader predict_body
         {| predictions_l := []; correct := 0; total := 0; testing_mode := false |};
  accuracy ←
    (if testing_mode st then
       lift (Some <$> truediv (float (100 * correct st)) (float (total st)))
     else mret None);
  predictions_l ← lift (torch.cat_int (predictions_l st));
  _ ← (if verbose && testing_mode st then print (Accuracy accuracy) else mret tt);
  mret (predictions_l, accuracy).

End Esn.

Arguments world : clear implicits.
Arguments M : clear implicits.
Arguments EchoStateNetwork : clear implicits.

(** * Properties *)

(** ** The order of the arg-max *)








Lemma above_lt (x y : spec_float) :
  x <> S754_nan -> y <> S754_nan -> torch.above x y = SFltb y x.
Proof. intros Hx Hy. destruct x, y; try reflexivity; congruence. Qed.

(** ** The arg-max of torch *)

(** [j] is the position of the first maximal entry of [v]: no entry is
    above the one at [j], and that one is above every entry before it. *)
Definition first_max (v : Tensor1) (j : nat) : Prop :=
  exists x, v !! j = Some x
    /\ (forall k y, v !! k = Some y -> torch.above y x = false)
    /\ (forall k y, (k < j)%nat -> v !! k = Some y -> torch.above x y = true).




(** The first maximum is one position. *)
Lemma first_max_unique (v : Tensor1) (i j : nat) : first_max v i -> first_max v j -> i = j.
Proof.
  intros (x & Hx & Hxle & Hxlt) (y & Hy & Hyle & Hylt).
  destruct (Nat.lt_trichotomy i j) as [Hij | [-> | Hji]]; [| reflexivity |].
  - pose proof (Hylt i x Hij Hx) as H1. pose proof (Hxle j y Hy) as H2. congruence.
  - pose proof (Hxlt j y Hji Hy) as H1. pose proof (Hyle i x Hx) as H2. congruence.
Qed.

(** In a row without nan every entry is at most the one at the first
    maximum, and the entries before it are smaller, as IEEE 754
    compares them. *)
Lemma first_max_numbers (v : Tensor1) (j : nat) :
  Forall (fun y => y <> S754_nan) v -> first_max v j ->
  exists x, v !! j = Some x
    /\ (forall k y, v !! k = Some y -> SFltb x y = false)
    /\ (forall k y, (k < j)%nat -> v !! k = Some y -> SFltb y x = true).
Proof.
  intros Hv (x & Hx & Hle & Hlt). rewrite Forall_lookup in Hv.
  exists x. split; [exact Hx | split].
  - intros k y Hy. rewrite <- (above_lt y x); eauto.
  - intros k y Hk Hy. rewrite <- (above_lt x y); eauto.
Qed.

(** In a row with a nan the first maximum is the first nan. *)
Lemma first_max_nan (v : Tensor1) (j k : nat) :
  v !! k = Some S754_nan -> first_max v j ->
  v !! j = Some S754_nan /\ (forall i, (i < j)%nat -> v !! i <> Some S754_nan).
Proof.
  intros Hk (x & Hx & Hle & Hlt).
  assert (Hnan : x = S754_nan).
  { pose proof (Hle k _ Hk) as H. destruct x; try discriminate H. reflexivity. }
  subst x. split; [exact Hx |].
  intros i Hi Hnan. pose proof (Hlt i _ Hi Hnan) as H. discriminate H.
Qed.

(** ** Spans and averages, as the specification words them *)

(** The rows of each sequence: the first [lengths[0]] rows, then the next
    [lengths[1]] rows, and so on. *)
Fixpoint spans {A : Type} (lengths : list nat) (rows : list A) : list (list A) :=
  match lengths with
  | [] => []
  | l :: lengths' => take l rows :: spans lengths' (drop l rows)
  end.


Lemma offsets_lookup (lengths : list nat) (i : nat) :
  (i <= length lengths)%nat -> offsets lengths !! i = Some (sum_list (take i lengths)).
Proof.
  intros Hi. unfold offsets. destruct i as [|i]; [reflexivity |]. simpl.
  rewrite list_lookup_fmap, lookup_seq_lt by lia. reflexivity.
Qed.

Lemma offsets_length (lengths : list nat) : length (offsets lengths) = S (length lengths).
Proof. unfold offsets. simpl. rewrite length_map, length_seq. reflexivity. Qed.

Lemma offsets_total (lengths : list nat) (i : nat) :
  (i <= length lengths)%nat -> offsets lengths !!! i = sum_list (take i lengths).
Proof. intros Hi. apply list_lookup_total_correct, offsets_lookup, Hi. Qed.

(** Slicing between consecutive offsets cuts the rows into the spans. *)
Lemma slices_spans {A : Type} (lengths : list nat) (rows : list A) (base : nat) :
  map (fun i => torch.slice (base + sum_list (take i lengths))
                            (base + sum_list (take (S i) lengths)) rows)
      (seq 0 (length lengths))
  = spans lengths (drop base rows).
Proof.
  revert base. induction lengths as [|l lengths IH]; intros base; [reflexivity |].
  simpl length. rewrite <- cons_seq, <- fmap_S_seq. simpl.
  f_equal.
  - unfold torch.slice. rewrite !Nat.add_0_r. f_equal. lia.
  - rewrite drop_drop, <- (IH (base + l)%nat).
    rewrite <- list_fmap_compose. apply list_fmap_ext. intros i k _. simpl.
    f_equal; lia.
Qed.

Lemma offset_slices_spans (d : torch.device) (c : nat) (lengths : list nat) (rows : Tensor2) :
  map (fun i => torch.mean_dim0 d c
                  (torch.slice (offsets lengths !!! i) (offsets lengths !!! (i + 1)%nat) rows))
      (seq 0 (length (offsets lengths) - 1))
  = map (torch.mean_dim0 d c) (spans lengths rows).
Proof.
  rewrite offsets_length. replace (S (length lengths) - 1)%nat with (length lengths) by lia.
  pose proof (slices_spans lengths rows 0) as H. rewrite drop_0 in H.
  rewrite <- H, <- list_fmap_compose.
  apply list_fmap_ext. intros i k Hk. apply lookup_seq in Hk as [-> Hk]. simpl.
  rewrite !offsets_total by lia. replace (i + 1)%nat with (S i) by lia. reflexivity.
Qed.


Lemma spans_width {A : Type} (P : A -> Prop) (lengths : list nat) (rows : list A) :
  Forall P rows -> Forall (Forall P) (spans lengths rows).
Proof.
  revert rows. induction lengths as [|l lengths IH]; intros rows Hrows; simpl.
  - constructor.
  - constructor; [apply Forall_take, Hrows | apply IH, Forall_drop, Hrows].
Qed.






(** ** Integers that float32 holds *)

Lemma digits2_pos_size (p : positive) : digits2_pos p = Pos.size p.
Proof. induction p as [p IH | p IH |]; simpl; [rewrite IH | rewrite IH |]; reflexivity. Qed.

Lemma digits2_pos_bound (p : positive) (n : Z) :
  0 <= n -> Zpos p < 2 ^ n -> Zpos (digits2_pos p) <= n.
Proof.
  intros Hn Hp. rewrite digits2_pos_size.
  pose proof (Pos.size_le p) as Hle.
  assert (H : 2 ^ Zpos (Pos.size p) <= 2 * Zpos p).
  { rewrite <- Pos2Z.inj_pow. exact Hle. }
  destruct (Z.le_gt_cases (Zpos (Pos.size p)) n) as [|Hgt]; [assumption | exfalso].
  assert (2 ^ (n + 1) <= 2 ^ Zpos (Pos.size p)) by (apply Z.pow_le_mono_r; lia).
  rewrite Z.pow_add_r in * by lia. lia.
Qed.

Lemma iter_xO_digits (p k : positive) :
  Zpos (digits2_pos (Pos.iter xO p k)) = Zpos (digits2_pos p) + Zpos k.
Proof.
  induction k as [|k IH] using Pos.peano_ind.
  - simpl. lia.
  - rewrite Pos.iter_succ. simpl. lia.
Qed.

Lemma iter_xO_value (p k : positive) : Zpos (Pos.iter xO p k) = Zpos p * 2 ^ Zpos k.
Proof.
  induction k as [|k IH] using Pos.peano_ind.
  - simpl. lia.
  - rewrite Pos.iter_succ, Pos2Z.inj_xO, IH, Pos2Z.inj_succ, Z.pow_succ_r by lia. lia.
Qed.

Section Exact.

Variables prec emax : Z.
Hypothesis Hprec : 1 < prec.
Hypothesis Hemax : prec <= emax.

Lemma fexp_above (e : Z) : 1 <= e -> fexp prec emax e = e - prec.
Proof. intros He. unfold fexp, emin. lia. Qed.

(** A mantissa of full width with a small exponent is kept as it is. *)
Lemma binary_round_aux_full (s : bool) (m : positive) (e : Z) :
  Zpos (digits2_pos m) = prec -> 1 - prec <= e <= 0 ->
  binary_round_aux prec emax s (Zpos m) e loc_Exact = S754_finite s m e.
Proof.
  intros Hm He. unfold binary_round_aux.
  assert (Hshr : shr_fexp prec emax (Zpos m) e loc_Exact
                 = ({| shr_m := Zpos m; shr_r := false; shr_s := false |}, e)).
  { unfold shr_fexp. simpl Zdigits2. rewrite Hm, fexp_above by lia.
    replace (prec + e - prec - e) with 0 by lia. reflexivity. }
  rewrite Hshr. simpl. rewrite Hshr. simpl.
  destruct (Z.leb_spec e (emax - prec)); [reflexivity | lia].
Qed.

(** An integer below [2 ^ prec] is a number of the format. *)
Lemma binary_round_small (s : bool) (p : positive) :
  Zpos p < 2 ^ prec ->
  exists m e, binary_round prec emax s p 0 = S754_finite s m e
              /\ e <= 0 /\ Zpos m = Zpos p * 2 ^ (- e).
Proof.
  intros Hp. pose proof (digits2_pos_bound p prec ltac:(lia) Hp) as Hd.
  unfold binary_round. rewrite Z.add_0_r, fexp_above by lia.
  unfold shl_align. rewrite Z.sub_0_r.
  destruct (Zpos (digits2_pos p) - prec) as [|k|k] eqn:Hk; [| lia |].
  - exists p, 0. rewrite binary_round_aux_full by lia. simpl. split; [reflexivity | lia].
  - pose proof (Pos2Z.opp_pos k) as Hopp.
    exists (Pos.iter xO p k), (Zneg k).
    rewrite binary_round_aux_full.
    + split; [reflexivity | split; [lia |]].
      rewrite iter_xO_value. reflexivity.
    + rewrite iter_xO_digits. lia.
    + lia.
Qed.

End Exact.




(** A positive integer below [2 ^ 53] is a Python float other than zero. *)
Lemma float_small (n : Z) :
  0 < n < 2 ^ 53 -> exists m e, float n = S754_finite false m e.
Proof.
  intros Hn. destruct n as [|p|p]; [lia | | lia].
  destruct (binary_round_small 53 1024 ltac:(lia) ltac:(lia) false p) as (m & e & H & _);
    [lia |].
  exists m, e. exact H.
Qed.

(** ** Running the monad *)

Section Run.

Context {W : Type}.
Implicit Types w : world W.

Lemma run_bind {A B : Type} (m : M W A) (k : A -> M W B) w :
  (m ≫= k) w = match m w with
               | (inl e, w') => (inl e, w')
               | (inr x, w') => k x w'
               end.
Proof. reflexivity. Qed.

Lemma run_bind_ok {A B : Type} (m : M W A) (k : A -> M W B) w x w' :
  m w = (inr x, w') -> (m ≫= k) w = k x w'.
Proof. intros H. rewrite run_bind, H. reflexivity. Qed.

Lemma run_bind_err {A B : Type} (m : M W A) (k : A -> M W B) w e w' :
  m w = (inl e, w') -> (m ≫= k) w = (inl e, w').
Proof. intros H. rewrite run_bind, H. reflexivity. Qed.

Lemma run_fmap_ok {A B : Type} (f : A -> B) (m : M W A) w x w' :
  m w = (inr x, w') -> (f <$> m) w = (inr (f x), w').
Proof. intros H. unfold fmap, M_fmap. rewrite H. reflexivity. Qed.

Lemma for_acc_cons {A S : Type} (x : A) (l : list A) (body : S -> A -> M W S) (acc : S) :
  for_acc (x :: l) body acc = body acc x ≫= (fun acc' => for_acc l body acc').
Proof. reflexivity. Qed.

Lemma for_acc_app {A S : Type} (l1 l2 : list A) (body : S -> A -> M W S) (acc : S) w :
  for_acc (l1 ++ l2) body acc w
  = (for_acc l1 body acc ≫= (fun acc' => for_acc l2 body acc')) w.
Proof.
  revert acc w. induction l1 as [|x l1 IH]; intros acc w; [reflexivity |].
  simpl app. rewrite !for_acc_cons, !run_bind.
  destruct (body acc x w) as [[e | acc'] w1]; [reflexivity |].
  rewrite IH. reflexivity.
Qed.

Lemma run_lift {A : Type} (r : result A) w : lift r w = (r, w).
Proof. reflexivity. Qed.

Lemma run_ret {A : Type} (x : A) w : (mret x : M W A) w = (inr x, w).
Proof. reflexivity. Qed.

End Run.

(** ** Predictions *)

Section Predictions.

Context {W : Type}.
Variable self : EchoStateNetwork W.
Variable a : la.LearningAlgo W.
Hypothesis Hla : learning_algo self = Some a.

Lemma learning_algo_call_run (states : Tensor2) (w : world W) :
  learning_algo_call self states w = (inr (la.call a (weights w) states), w).
Proof. unfold learning_algo_call. rewrite Hla. reflexivity. Qed.



End Predictions.

(** ** Directional pooling *)

(** The tensor that the loop over [enumerate(lengths)] leaves in
    [restored_states]: the first [lengths[i]] time rows of sequence [i]
    in reverse order, everything else as it was. *)
Definition unreverse (lengths : list nat) (reversed : Tensor3) : Tensor3 :=
  zip_with torch.flip_prefix lengths reversed ++ drop (length lengths) reversed.

Section Pooling.

Context {W : Type}.
Variable self : EchoStateNetwork W.
Implicit Types w : world W.

Definition with_heap (h : list (list (list (list spec_float)))) w : world W :=
  {| heap := h; weights := weights w; trace := trace w |}.

Definition with_trace (t : list event) w : world W :=
  {| heap := heap w; weights := weights w; trace := t |}.

Lemma world_eta w : {| heap := heap w; weights := weights w; trace := trace w |} = w.
Proof. destruct w. reflexivity. Qed.

Lemma merging_strategy_call_run (r : nat) (t : Tensor3) lengths texts fts w :
  heap w !! r = Some t ->
  merging_strategy_call self (Some r) lengths texts fts w
  = (inr (ms.call (merging_strategy self) (Some t) lengths texts fts),
     with_trace (trace w ++ [Merge (Some t) lengths texts fts]) w).
Proof.
  intros Hr. unfold merging_strategy_call.
  rewrite run_bind. unfold fmap, M_fmap, load. rewrite Hr. reflexivity.
Qed.

Lemma merging_strategy_call_none lengths texts fts w :
  merging_strategy_call self None lengths texts fts w
  = (inr (ms.call (merging_strategy self) None lengths texts fts),
     with_trace (trace w ++ [Merge None lengths texts fts]) w).
Proof. reflexivity. Qed.

(** The loop of line 156, started at sequence [k]. *)
Lemma flip_loop_run (r : nat) (lengths : list nat) :
  forall (k : nat) (t : Tensor3) w,
    heap w !! r = Some t ->
    (k + length lengths <= length t)%nat ->
    for_each (zip (seq k (length lengths)) lengths) (flip_in_place r) w
    = (inr tt,
       with_heap (<[r := take k t ++ zip_with torch.flip_prefix lengths (drop k t)
                              ++ drop (k + length lengths) t]> (heap w)) w).
Proof.
  induction lengths as [|l lengths IH]; intros k t w Hr Hk.
  - simpl. rewrite Nat.add_0_r, take_drop, list_insert_id by exact Hr.
    unfold with_heap. rewrite world_eta. reflexivity.
  - simpl length in *. simpl seq. simpl zip. simpl for_each.
    destruct (lookup_lt_is_Some_2 t k) as [x Hx]; [lia |].
    assert (Hstep : flip_in_place r (k, l) w
                    = (inr tt, with_heap (<[r := <[k := torch.flip_prefix l x]> t]> (heap w)) w)).
    { unfold flip_in_place. rewrite run_bind. unfold load. rewrite Hr. simpl.
      rewrite Hx. reflexivity. }
    rewrite (run_bind_ok _ _ _ _ _ Hstep).
    rewrite (IH (S k) (<[k := torch.flip_prefix l x]> t)).
    + unfold with_heap. simpl. rewrite list_insert_insert_eq.
      do 3 f_equal.
      rewrite (take_S_r _ _ (torch.flip_prefix l x)).
      2:{ apply list_lookup_insert_eq. eapply lookup_lt_Some, Hx. }
      rewrite take_insert_ge by lia.
      rewrite (drop_S t x k Hx). simpl.
      rewrite !drop_insert_lt by lia.
      rewrite <- app_assoc. simpl.
      replace (k + S (length lengths))%nat with (S k + length lengths)%nat by lia.
      reflexivity.
    + simpl. apply list_lookup_insert_eq. eapply lookup_lt_Some, Hr.
    + rewrite length_insert. lia.
Qed.

Lemma enumerate_flip_run (r : nat) (lengths : list nat) (t : Tensor3) w :
  heap w !! r = Some t ->
  (length lengths <= length t)%nat ->
  for_each (enumerate lengths) (flip_in_place r) w
  = (inr tt, with_heap (<[r := unreverse lengths t]> (heap w)) w).
Proof.
  intros Hr Hlen. unfold enumerate. rewrite (flip_loop_run r lengths 0 t w Hr) by lia.
  reflexivity.
Qed.

Lemma same_shape2_spec {A B : Type} (x : list (list A)) (y : list (list B)) :
  torch.same_shape2 x y = true <-> map length x = map length y.
Proof.
  revert y. induction x as [|r x IH]; intros [|r' y]; simpl; try (split; congruence).
  rewrite andb_true_iff, IH. unfold torch.same_length. rewrite Nat.eqb_eq.
  split; [intros [-> ->]; reflexivity | intros H; injection H; auto].
Qed.

Lemma flip_prefix_length (l : nat) (x : Tensor2) : length (torch.flip_prefix l x) = length x.
Proof.
  unfold torch.flip_prefix, torch.flip0.
  rewrite length_app, length_rev, length_take, length_drop. lia.
Qed.

Lemma unreverse_shape (lengths : list nat) (reversed : Tensor3) :
  map length (unreverse lengths reversed) = map length reversed.
Proof.
  unfold unreverse. revert reversed.
  induction lengths as [|l lengths IH]; intros [|x reversed]; simpl; try reflexivity.
  rewrite flip_prefix_length, IH. reflexivity.
Qed.

Lemma unreverse_lookup (lengths : list nat) (reversed : Tensor3) (i l : nat) (x : Tensor2) :
  lengths !! i = Some l -> reversed !! i = Some x ->
  unreverse lengths reversed !! i = Some (torch.flip_prefix l x).
Proof.
  intros Hl Hx. unfold unreverse. rewrite lookup_app_l.
  - rewrite lookup_zip_with, Hl. simpl. rewrite Hx. reflexivity.
  - rewrite length_zip_with. apply lookup_lt_Some in Hl, Hx. lia.
Qed.

Lemma unreverse_lookup_ge (lengths : list nat) (reversed : Tensor3) (i : nat) :
  (length lengths <= i)%nat -> (length lengths <= length reversed)%nat ->
  unreverse lengths reversed !! i = reversed !! i.
Proof.
  intros Hi Hlen. unfold unreverse. rewrite lookup_app_r; rewrite length_zip_with.
  - rewrite lookup_drop. f_equal. lia.
  - lia.
Qed.

(** What [x[:l] = flip(x[:l])] does to the time rows of one sequence. *)
Lemma flip_prefix_rows (l : nat) (x : Tensor2) :
  (forall t, (l <= t)%nat -> torch.flip_prefix l x !! t = x !! t)
  /\ (forall t, (t < Nat.min l (length x))%nat ->
        torch.flip_prefix l x !! t = x !! (Nat.min l (length x) - 1 - t)%nat).
Proof.
  unfold torch.flip_prefix, torch.flip0. split; intros t Ht.
  - destruct (decide (length x <= t)%nat) as [Hge | Hlt].
    + rewrite !lookup_ge_None_2; [reflexivity | lia |].
      rewrite length_app, length_rev, length_take, length_drop. lia.
    + rewrite lookup_app_r; rewrite length_rev, length_take; [| lia].
      rewrite lookup_drop. f_equal. lia.
  - rewrite lookup_app_l by (rewrite length_rev, length_take; lia).
    rewrite rev_alt. change (rev_append ?k []) with (reverse k).
    rewrite reverse_lookup by (rewrite length_take; lia).
    rewrite length_take, lookup_take_lt by lia. f_equal. lia.
Qed.

(** Bidirectional with pooling: the reduction is called on the forward
    states with the extra features, then on the reversed states without
    them, and the two pooled results are joined along the feature axis,
    forward features first. *)
Lemma pooled_both_ways_run
    (tag : string) (states r : nat) (fwd bwd : Tensor3)
    (lengths : list nat) (texts : text) (additional_fts : value) w :
  bidirectional self = true ->
  ms.merging_strategy (merging_strategy self) = Some tag ->
  heap w !! states = Some fwd ->
  heap w !! r = Some bwd ->
  let normal := ms.call (merging_strategy self) (Some fwd) lengths texts (Passed additional_fts) in
  let reversed := ms.call (merging_strategy self) (Some bwd) lengths texts Omitted in
  _apply_pooling_strategy self states lengths texts (Some r) additional_fts w
  = (torch.cat_dim1 normal reversed,
     with_trace (trace w ++ [Merge (Some fwd) lengths texts (Passed additional_fts);
                             Merge (Some bwd) lengths texts Omitted]) w)
  /\ (length normal = length reversed ->
      torch.cat_dim1 normal reversed = inr (zip_with app normal reversed))
  /\ (forall i x y, normal !! i = Some x -> reversed !! i = Some y ->
        zip_with app normal reversed !! i = Some (x ++ y)).
Proof.
  intros Hbi Htag Hs Hr normal reversed. split; [| split].
  - unfold _apply_pooling_strategy. rewrite Hbi, Htag.
    rewrite (run_bind_ok _ _ _ _ _ (merging_strategy_call_run _ _ _ _ _ _ Hs)).
    rewrite (run_bind_ok _ _ _ _ _
               (merging_strategy_call_run r bwd lengths texts Omitted (with_trace _ w) Hr)).
    rewrite run_lift. unfold with_trace. simpl. rewrite <- app_assoc. reflexivity.
  - intros Hlen. unfold torch.cat_dim1, torch.same_length.
    rewrite (proj2 (Nat.eqb_eq _ _) Hlen). reflexivity.
  - intros i x y Hx Hy. rewrite lookup_zip_with, Hx. simpl. rewrite Hy. reflexivity.
Qed.

(** Bidirectional without pooling: a clone of
    the reversed states gets the first [lengths[i]] time rows of every
    sequence [i] put back in forward order, the rows from [lengths[i]] on
    staying as they are; the forward states and the clone are joined
    along the feature axis; the reduction is called on the result with
    no extra features.  The reversed states themselves are not written. *)
Lemma restored_both_ways_run
    (states r : nat) (fwd bwd : Tensor3)
    (lengths : list nat) (texts : text) (additional_fts : value) w :
  bidirectional self = true ->
  ms.merging_strategy (merging_strategy self) = None ->
  heap w !! states = Some fwd ->
  heap w !! r = Some bwd ->
  (length lengths <= length bwd)%nat ->
  torch.same_shape2 fwd bwd = true ->
  let restored := unreverse lengths bwd in
  let concatenated := zip_with (zip_with app) fwd restored in
  let w' := {| heap := heap w ++ [restored; concatenated];
               weights := weights w;
               trace := trace w ++ [Merge (Some concatenated) lengths texts Omitted] |} in
  _apply_pooling_strategy self states lengths texts (Some r) additional_fts w
  = (inr (ms.call (merging_strategy self) (Some concatenated) lengths texts Omitted), w')
  /\ heap w' !! r = Some bwd
  /\ (forall i l x, lengths !! i = Some l -> bwd !! i = Some x ->
        exists y, restored !! i = Some y
          /\ length y = length x
          /\ (forall t, (l <= t)%nat -> y !! t = x !! t)
          /\ (forall t, (t < Nat.min l (length x))%nat ->
                y !! t = x !! (Nat.min l (length x) - 1 - t)%nat))
  /\ (forall i, (length lengths <= i)%nat -> restored !! i = bwd !! i).
Proof.
  intros Hbi Htag Hs Hr Hlen Hshape restored concatenated w'.
  pose proof (lookup_lt_Some _ _ _ Hs) as Hs_lt.
  pose proof (lookup_lt_Some _ _ _ Hr) as Hr_lt.
  split; [| split; [| split]].
  - unfold _apply_pooling_strategy. rewrite Hbi, Htag.
    assert (Hclone : clone (Some r) w = (inr (length (heap w)), with_heap (heap w ++ [bwd]) w)).
    { unfold clone. rewrite run_bind. unfold load. rewrite Hr. reflexivity. }
    rewrite (run_bind_ok _ _ _ _ _ Hclone).
    assert (Hloop : for_each (enumerate lengths) (flip_in_place (length (heap w)))
                      (with_heap (heap w ++ [bwd]) w)
                    = (inr tt, with_heap (heap w ++ [restored]) w)).
    { rewrite (enumerate_flip_run (length (heap w)) lengths bwd); [| | exact Hlen].
      - unfold with_heap. simpl.
        replace (length (heap w)) with (length (heap w) + 0)%nat at 1 by lia.
        rewrite insert_app_r. reflexivity.
      - simpl. apply list_lookup_middle. reflexivity. }
    rewrite (run_bind_ok _ _ _ _ _ Hloop).
    rewrite run_bind. unfold load at 1. simpl.
    rewrite lookup_app_l, Hs by lia. simpl.
    rewrite run_bind. unfold load at 1. simpl.
    rewrite list_lookup_middle by reflexivity. simpl.
    rewrite run_bind, run_lift. unfold torch.cat_dim2.
    replace (torch.same_shape2 fwd restored) with true.
    2:{ symmetry. apply same_shape2_spec. unfold restored. rewrite unreverse_shape.
        apply same_shape2_spec, Hshape. }
    fold concatenated. simpl.
    rewrite run_bind. unfold alloc at 1. simpl.
    rewrite (merging_strategy_call_run _ concatenated).
    + unfold with_trace, w'. simpl. rewrite <- app_assoc. reflexivity.
    + simpl. apply list_lookup_middle. reflexivity.
  - unfold w'. simpl. rewrite lookup_app_l by lia. exact Hr.
  - intros i l x Hl Hx. exists (torch.flip_prefix l x).
    split; [apply unreverse_lookup; assumption |].
    split; [apply flip_prefix_length |]. apply flip_prefix_rows.
  - intros i Hi. apply unreverse_lookup_ge; assumption.
Qed.

End Pooling.

(** ** One batch *)

Section Batch.

Context {W : Type}.
Variable self : EchoStateNetwork W.
Implicit Types w : world W.

Lemma run_bind_ext {A B : Type} (m m' : M W A) (k k' : A -> M W B) w :
  m w = m' w -> (forall x w1, k x w1 = k' x w1) -> (m ≫= k) w = (m' ≫= k') w.
Proof.
  intros Hm Hk. rewrite !run_bind, Hm. destruct (m' w) as [[e | x] w1]; [reflexivity | apply Hk].
Qed.

(** The value of [_apply_pooling_strategy] on forward states [fwd] and
    reversed states [bwd], when no tensor operation fails. *)
Definition pooled_states (fwd : Tensor3) (lengths : list nat) (texts : text)
    (bwd : Tensor3) (additional_fts : value) : Tensor2 :=
  let reduce := ms.call (merging_strategy self) in
  if bidirectional self then
    match ms.merging_strategy (merging_strategy self) with
    | None =>
        reduce (Some (zip_with (zip_with app) fwd (unreverse lengths bwd))) lengths texts Omitted
    | Some _ =>
        zip_with app (reduce (Some fwd) lengths texts (Passed additional_fts))
                     (reduce (Some bwd) lengths texts Omitted)
    end
  else reduce (Some fwd) lengths texts (Passed additional_fts).

(** The shapes for which no tensor operation of the pooling fails. *)
Definition pooling_defined (fwd : Tensor3) (lengths : list nat) (texts : text)
    (bwd : Tensor3) (additional_fts : value) : bool :=
  let reduce := ms.call (merging_strategy self) in
  if bidirectional self then
    match ms.merging_strategy (merging_strategy self) with
    | None => (length lengths <=? length bwd)%nat && torch.same_shape2 fwd bwd
    | Some _ =>
        torch.same_length (reduce (Some fwd) lengths texts (Passed additional_fts))
                          (reduce (Some bwd) lengths texts Omitted)
    end
  else true.

(** The calls to the reduction, in order. *)
Definition pooling_events (fwd : Tensor3) (lengths : list nat) (texts : text)
    (bwd : Tensor3) (additional_fts : value) : list event :=
  if bidirectional self then
    match ms.merging_strategy (merging_strategy self) with
    | None =>
        [Merge (Some (zip_with (zip_with app) fwd (unreverse lengths bwd))) lengths texts Omitted]
    | Some _ =>
        [Merge (Some fwd) lengths texts (Passed additional_fts);
         Merge (Some bwd) lengths texts Omitted]
    end
  else [Merge (Some fwd) lengths texts (Passed additional_fts)].

(** The tensors that the pooling creates. *)
Definition pooling_heap (fwd : Tensor3) (lengths : list nat) (bwd : Tensor3)
    : list (list (list (list spec_float))) :=
  if bidirectional self then
    match ms.merging_strategy (merging_strategy self) with
    | None => [unreverse lengths bwd; zip_with (zip_with app) fwd (unreverse lengths bwd)]
    | Some _ => []
    end
  else [].

Lemma apply_pooling_strategy_run (states : nat) (reversed_states : option nat)
    (fwd bwd : Tensor3) (lengths : list nat) (texts : text) (additional_fts : value) w :
  heap w !! states = Some fwd ->
  (bidirectional self = true ->
   exists r, reversed_states = Some r /\ heap w !! r = Some bwd) ->
  pooling_defined fwd lengths texts bwd additional_fts = true ->
  _apply_pooling_strategy self states lengths texts reversed_states additional_fts w
  = (inr (pooled_states fwd lengths texts bwd additional_fts),
     {| heap := heap w ++ pooling_heap fwd lengths bwd;
        weights := weights w;
        trace := trace w ++ pooling_events fwd lengths texts bwd additional_fts |}).
Proof.
  intros Hs Hr Hdef.
  unfold pooled_states, pooling_defined, pooling_events, pooling_heap in *.
  destruct (bidirectional self) eqn:Hbi.
  - destruct (Hr eq_refl) as (r & -> & Hbwd).
    destruct (ms.merging_strategy (merging_strategy self)) as [tag |] eqn:Htag.
    + destruct (pooled_both_ways_run self tag states r fwd bwd lengths texts
                  additional_fts w Hbi Htag Hs Hbwd) as (Hrun & Hcat & _).
      rewrite Hrun, Hcat, app_nil_r; [reflexivity |].
      apply Nat.eqb_eq, Hdef.
    + apply andb_true_iff in Hdef as [Hlen Hshape]. apply Nat.leb_le in Hlen.
      apply (restored_both_ways_run self states r fwd bwd lengths texts
               additional_fts w Hbi Htag Hs Hbwd Hlen Hshape).
  - unfold _apply_pooling_strategy. rewrite Hbi.
    rewrite (merging_strategy_call_run self _ _ _ _ _ _ Hs), app_nil_r. reflexivity.
Qed.

(** *** A Keyed batch that carries labels *)

Definition fields (b : batch) : gmap string value :=
  match b with Keyed d | Attributed d => d end.

Definition batch_fts (b : batch) : value := default VNone (fields b !! "additional_fts").

Definition batch_labels (b : batch) : list Z :=
  match fields b !! "labels" with
  | Some (VLabels l) => l
  | _ => []
  end.

Definition fwd_states (b : batch) : list (list (list spec_float)) :=
  fst (res.forward (layer self) (TextBatch b)).
Definition fwd_lengths (b : batch) : list nat :=
  snd (res.forward (layer self) (TextBatch b)).
Definition bwd_states (b : batch) : list (list (list spec_float)) :=
  fst (res.reverse_forward (layer self) (TextBatch b)).

(** The merged states of a batch. *)
Definition final_states (b : batch) : list (list spec_float) :=
  pooled_states (fwd_states b) (fwd_lengths b) (TextBatch b) (bwd_states b) (batch_fts b).

(** The labels that go with the rows of the merged states. *)
Definition row_labels (b : batch) : list Z :=
  match ms.merging_strategy (merging_strategy self) with
  | None => mat.duplicate_labels (batch_labels b) (fwd_lengths b)
  | Some _ => batch_labels b
  end.

(** A batch that the loops process without an exception: Keyed, with a
    label tensor, with extra features that are a tensor when the key is
    there, and with shapes that fit. *)
Definition batch_defined (b : batch) : bool :=
  match b with
  | Attributed _ => false
  | Keyed d =>
      match d !! "labels" with Some (VLabels _) => true | _ => false end
      && match d !! "additional_fts" with Some VNone => false | _ => true end
      && pooling_defined (fwd_states b) (fwd_lengths b) (TextBatch b) (bwd_states b) (batch_fts b)
  end.

Definition encode_heap (b : batch) : list (list (list (list spec_float))) :=
  fwd_states b :: (if bidirectional self then [bwd_states b] else []).

Definition encode_events (b : batch) : list event :=
  Forward (TextBatch b) :: (if bidirectional self then [ReverseForward (TextBatch b)] else []).

(** What processing a batch adds to the store and to the trace. *)
Definition batch_heap (b : batch) : list (list (list (list spec_float))) :=
  encode_heap b ++ pooling_heap (fwd_states b) (fwd_lengths b) (bwd_states b).

Definition batch_events (b : batch) : list event :=
  encode_events b
  ++ pooling_events (fwd_states b) (fwd_lengths b) (TextBatch b) (bwd_states b) (batch_fts b).

Definition after_batch (b : batch) w : world W :=
  {| heap := heap w ++ batch_heap b; weights := weights w; trace := trace w ++ batch_events b |}.

Lemma read_batch_run (b : batch) w :
  res.embedding_callable (layer self) = true ->
  batch_defined b = true ->
  read_batch self b w
  = (inr (TextBatch b, VLabels (batch_labels b), Some (batch_fts b)), w).
Proof.
  intros Hcall Hdef. unfold read_batch. rewrite Hcall.
  destruct b as [d | d]; [| discriminate]. unfold batch_defined in Hdef.
  apply andb_true_iff in Hdef as [Hdef _]. apply andb_true_iff in Hdef as [Hlab Hfts].
  unfold batch_labels, batch_fts, fields.
  rewrite run_bind, run_lift. unfold getitem.
  destruct (d !! "labels") as [[| l | |] |] eqn:Hl; try discriminate. simpl.
  rewrite run_bind, run_lift. unfold has_key. simpl.
  destruct (d !! "additional_fts") as [[| | |] |] eqn:Hf; try discriminate; reflexivity.
Qed.

Lemma encode_run (b : batch) w :
  encode self (TextBatch b) w
  = (inr (length (heap w), fwd_lengths b,
          if bidirectional self then Some (S (length (heap w))) else None),
     {| heap := heap w ++ encode_heap b; weights := weights w;
        trace := trace w ++ encode_events b |}).
Proof.
  unfold encode, layer_forward, layer_reverse_forward, encode_heap, encode_events,
    fwd_lengths, fwd_states, bwd_states.
  destruct (res.forward (layer self) (TextBatch b)) as [fwd lengths].
  destruct (res.reverse_forward (layer self) (TextBatch b)) as [bwd lengths'].
  destruct (bidirectional self); simpl; unfold mbind, M_bind, emit, alloc; simpl.
  - rewrite length_app. simpl. rewrite Nat.add_1_r, <- !app_assoc. reflexivity.
  - reflexivity.
Qed.

(** Reading, encoding and pooling a batch. *)
Lemma pooling_after_encode (b : batch) w :
  batch_defined b = true ->
  _apply_pooling_strategy self (length (heap w)) (fwd_lengths b) (TextBatch b)
    (if bidirectional self then Some (S (length (heap w))) else None) (batch_fts b)
    {| heap := heap w ++ encode_heap b; weights := weights w;
       trace := trace w ++ encode_events b |}
  = (inr (final_states b), after_batch b w).
Proof.
  intros Hdef. destruct b as [d | d]; [| discriminate].
  apply andb_true_iff in Hdef as [_ Hpool].
  rewrite (apply_pooling_strategy_run _ _ (fwd_states (Keyed d)) (bwd_states (Keyed d))).
  - unfold after_batch, batch_heap, batch_events, final_states. simpl.
    rewrite <- !app_assoc. reflexivity.
  - simpl. apply list_lookup_middle. reflexivity.
  - intros Hbi. rewrite Hbi. eexists. split; [reflexivity |].
    simpl. unfold encode_heap. rewrite Hbi.
    rewrite lookup_app_r by lia. replace (S (length (heap w)) - length (heap w))%nat with 1%nat by lia.
    reflexivity.
  - exact Hpool.
Qed.

End Batch.

(** ** Closed-form training *)

Section ClosedForm.

Context {W : Type}.
Variable self : EchoStateNetwork W.
Implicit Types w : world W.

Hypothesis Hcallable : res.embedding_callable (layer self) = true.

Definition after_batches (dl : list batch) w : world W :=
  {| heap := heap w ++ concat (map (batch_heap self) dl);
     weights := weights w;
     trace := trace w ++ concat (map (batch_events self) dl) |}.

Lemma after_batches_cons (b : batch) (dl : list batch) w :
  after_batches dl (after_batch self b w) = after_batches (b :: dl) w.
Proof.
  unfold after_batches, after_batch. cbn [heap weights trace].
  change (concat (map ?f (b :: dl))) with (f b ++ concat (map f dl)).
  rewrite <- !app_assoc. reflexivity.
Qed.

Lemma fit_direct_body_run (states_l : list (list (list spec_float))) (labels_l : list value)
    (b : batch) w :
  batch_defined self b = true ->
  _fit_direct_body self (states_l, labels_l) b w
  = (inr (states_l ++ [final_states self b], labels_l ++ [VLabels (row_labels self b)]),
     after_batch self b w).
Proof.
  intros Hdef. unfold _fit_direct_body.
  rewrite (run_bind_ok _ _ _ _ _ (read_batch_run self b w Hcallable Hdef)).
  rewrite (run_bind_ok _ _ _ _ _ (encode_run self b w)).
  unfold row_labels.
  destruct (ms.merging_strategy (merging_strategy self)) as [tag |];
    do 2 (erewrite run_bind_ok by reflexivity);
    rewrite (run_bind_ok _ _ _ _ _ (pooling_after_encode self b w Hdef)); reflexivity.
Qed.

Lemma fit_direct_loop_run (dl : list batch) :
  Forall (fun b => batch_defined self b = true) dl ->
  forall (states_l : list (list (list spec_float))) (labels_l : list value) w,
    for_acc dl (_fit_direct_body self) (states_l, labels_l) w
    = (inr (states_l ++ map (final_states self) dl,
            labels_l ++ map (fun b => VLabels (row_labels self b)) dl),
       after_batches dl w).
Proof.
  induction 1 as [|b dl Hb _ IH]; intros states_l labels_l w.
  - simpl. rewrite !app_nil_r. unfold after_batches. simpl. rewrite !app_nil_r.
    destruct w. reflexivity.
  - rewrite for_acc_cons, (run_bind_ok _ _ _ _ _ (fit_direct_body_run _ _ b w Hb)).
    rewrite IH, after_batches_cons. simpl map. rewrite <- !app_assoc. reflexivity.
Qed.

Lemma cat_labels_run (ls : list (list Z)) :
  ls <> [] -> torch.cat_labels (map VLabels ls) = inr (concat ls).
Proof.
  intros Hne. unfold torch.cat_labels.
  assert (Hmap : mapM label_tensor (map VLabels ls) = inr ls).
  { clear Hne. induction ls as [|l ls IH]; [reflexivity |].
    simpl. rewrite IH. reflexivity. }
  destruct ls as [|l ls]; [congruence |]. simpl map at 1.
  cbv beta iota. rewrite Hmap. reflexivity.
Qed.

(** The closed-form trainer on a loader of well-formed batches. *)
Lemma fit_direct_run (a : la.LearningAlgo W) (dl : list batch) w :
  learning_algo self = Some a ->
  dl <> [] ->
  Forall (fun b => batch_defined self b = true) dl ->
  torch.rectangular (concat (map (final_states self) dl)) = true ->
  let all_states := concat (map (final_states self) dl) in
  let all_labels := concat (map (row_labels self) dl) in
  _fit_direct self dl w
  = (inr None,
     {| heap := heap w ++ concat (map (batch_heap self) dl);
        weights := la.fit a (weights w) all_states all_labels;
        trace := trace w
                 ++ [Print (Text "Computing closed-form solution...")]
                 ++ concat (map (batch_events self) dl)
                 ++ [Fit all_states all_labels; Print (Text "Training complete.")] |}).
Proof.
  intros Hla Hne Hdef Hrect all_states all_labels. unfold _fit_direct.
  rewrite run_bind. unfold print at 1, emit at 1. cbv beta iota.
  rewrite (run_bind_ok _ _ _ _ _ (fit_direct_loop_run dl Hdef [] [] _)).
  cbv beta iota. simpl app.
  assert (Hcat : torch.cat_dim0 (map (final_states self) dl) = inr all_states).
  { unfold torch.cat_dim0. rewrite Hrect. destruct dl; [congruence | reflexivity]. }
  rewrite run_bind, run_lift, Hcat.
  assert (Hlab : torch.cat_labels (map (fun b => VLabels (row_labels self b)) dl)
                 = inr all_labels).
  { change (map (fun b => VLabels (row_labels self b)) dl)
      with ((VLabels ∘ row_labels self) <$> dl).
    rewrite list_fmap_compose. apply cat_labels_run.
    destruct dl; [congruence | discriminate]. }
  rewrite run_bind, run_lift, Hlab. rewrite Hla.
  unfold after_batches.
  cbv [mbind M_bind get_weights emit set_weights print mret M_ret heap weights trace].
  rewrite <- !app_assoc. reflexivity.
Qed.

End ClosedForm.

(** ** Iterative training *)

(** The samples kept from the losses [losses] of consecutive iterations
    when [n_iter] iterations were counted before the first of them: the
    loss of an iteration is kept when the count, once incremented, is a
    multiple of [iter_steps]. *)
Fixpoint recorded (iter_steps n_iter : Z) (losses : list spec_float) : list spec_float :=
  match losses with
  | [] => []
  | loss :: losses' =>
      if Z.eqb ((n_iter + 1) mod iter_steps) 0
      then loss :: recorded iter_steps (n_iter + 1) losses'
      else recorded iter_steps (n_iter + 1) losses'
  end.

Lemma recorded_app (s n : Z) (l1 l2 : list spec_float) :
  recorded s n (l1 ++ l2) = recorded s n l1 ++ recorded s (n + Z.of_nat (length l1)) l2.
Proof.
  revert n. induction l1 as [|x l1 IH]; intros n; simpl.
  - rewrite Z.add_0_r. reflexivity.
  - rewrite IH. replace (n + 1 + Z.of_nat (length l1)) with (n + Z.pos (Pos.of_succ_nat (length l1))) by lia.
    destruct (Z.eqb ((n + 1) mod s) 0); reflexivity.
Qed.

Lemma div_succ_multiple (s n : Z) :
  0 < s -> 0 <= n -> (n + 1) mod s = 0 -> (n + 1) / s = n / s + 1 /\ (n / s + 1) * s = n + 1.
Proof.
  intros Hs Hn Hmod.
  pose proof (Z.div_mod (n + 1) s ltac:(lia)) as H1. rewrite Hmod in H1.
  pose proof (Z.div_mod n s ltac:(lia)) as H2.
  pose proof (Z.mod_pos_bound n s Hs) as H3.
  assert ((n + 1) / s = n / s + 1) by nia. split; nia.
Qed.

Lemma div_succ_other (s n : Z) :
  0 < s -> 0 <= n -> (n + 1) mod s <> 0 -> (n + 1) / s = n / s /\ n + 2 <= (n / s + 1) * s.
Proof.
  intros Hs Hn Hmod.
  pose proof (Z.div_mod (n + 1) s ltac:(lia)) as H1.
  pose proof (Z.mod_pos_bound (n + 1) s Hs) as H1'.
  pose proof (Z.div_mod n s ltac:(lia)) as H2.
  pose proof (Z.mod_pos_bound n s Hs) as H3.
  assert ((n + 1) / s = n / s) by nia. split; nia.
Qed.

(** How many samples are kept, and which. *)
Lemma recorded_spec (s : Z) (losses : list spec_float) :
  0 < s ->
  forall n, 0 <= n ->
    Z.of_nat (length (recorded s n losses)) = (n + Z.of_nat (length losses)) / s - n / s
    /\ forall k, (k < length (recorded s n losses))%nat ->
         recorded s n losses !! k
         = losses !! Z.to_nat ((n / s + Z.of_nat k + 1) * s - n - 1).
Proof.
  intros Hs. induction losses as [|x losses IH]; intros n Hn.
  - simpl. rewrite Z.add_0_r. split; [lia | intros k Hk; lia].
  - specialize (IH (n + 1) ltac:(lia)) as [IHlen IHget].
    simpl recorded. simpl length.
    destruct (Z.eqb ((n + 1) mod s) 0) eqn:Hmod.
    + apply Z.eqb_eq in Hmod. destruct (div_succ_multiple s n Hs Hn Hmod) as [Hdiv Hmul].
      split.
      * simpl length. rewrite Nat2Z.inj_succ, IHlen, Hdiv.
        replace (n + 1 + Z.of_nat (length losses)) with (n + Z.succ (Z.of_nat (length losses))) by lia.
        rewrite <- Nat2Z.inj_succ. lia.
      * intros [|k] Hk.
        -- replace (Z.to_nat ((n / s + Z.of_nat 0 + 1) * s - n - 1)) with 0%nat by lia.
           reflexivity.
        -- simpl in Hk. simpl lookup at 1. rewrite IHget by lia. rewrite Hdiv.
           replace (Z.to_nat ((n / s + Z.of_nat (S k) + 1) * s - n - 1))
             with (S (Z.to_nat ((n / s + 1 + Z.of_nat k + 1) * s - (n + 1) - 1))) by nia.
           reflexivity.
    + apply Z.eqb_neq in Hmod. destruct (div_succ_other s n Hs Hn Hmod) as [Hdiv Hle].
      split.
      * rewrite IHlen, Hdiv.
        replace (n + 1 + Z.of_nat (length losses)) with (n + Z.of_nat (S (length losses))) by lia.
        reflexivity.
      * intros k Hk. rewrite IHget by exact Hk. rewrite Hdiv.
        replace (Z.to_nat ((n / s + Z.of_nat k + 1) * s - n - 1))
          with (S (Z.to_nat ((n / s + Z.of_nat k + 1) * s - (n + 1) - 1))) by nia.
        reflexivity.
Qed.

Section Iterative.

Context {W : Type}.
Variable self : EchoStateNetwork W.
Implicit Types w : world W.

Variable a : la.LearningAlgo W.
Variable c : Criterion.
Variable o : Optimizer W.
Hypothesis Hcallable : res.embedding_callable (layer self) = true.
Hypothesis Hla : learning_algo self = Some a.
Hypothesis Hcriterion : criterion self = Some c.
Hypothesis Hoptimizer : optimizer self = Some o.

(** The target that the criterion receives for a batch. *)
Definition batch_target (b : batch) : result target :=
  match loss_cls c with
  | MultiLabelSoftMarginLoss | BCEWithLogitsLoss => OneHot <$> torch.one_hot (row_labels self b)
  | OtherLoss => inr (ClassIdx (row_labels self b))
  end.

Definition target_or_empty (b : batch) : target :=
  match batch_target b with
  | inr t => t
  | inl _ => ClassIdx []
  end.

(** A batch on which an iteration raises nothing. *)
Definition iteration_defined (b : batch) : bool :=
  batch_defined self b && match batch_target b with inr _ => true | inl _ => false end.

(** The loss of the iteration on batch [b] under the weights [wt], and
    the weights after its gradient step. *)
Definition iteration_loss (b : batch) (wt : W) : spec_float :=
  loss_call c (la.call a wt (final_states self b)) (target_or_empty b).

Definition iteration_update (b : batch) (wt : W) : W :=
  update o wt (final_states self b) (target_or_empty b).

(** The losses of consecutive iterations, one per batch. *)
Fixpoint losses (bs : list batch) (wt : W) : list spec_float :=
  match bs with
  | [] => []
  | b :: bs' => iteration_loss b wt :: losses bs' (iteration_update b wt)
  end.

Definition trained (bs : list batch) (wt : W) : W :=
  fold_left (fun wt b => iteration_update b wt) bs wt.

Lemma losses_length (bs : list batch) (wt : W) : length (losses bs wt) = length bs.
Proof. revert wt. induction bs as [|b bs IH]; intros wt; simpl; [| rewrite IH]; reflexivity. Qed.

Lemma fit_GD_body_run (iter_steps : Z) (loss_l : list spec_float) (n_iter : Z) (b : batch) w :
  iter_steps <> 0 ->
  iteration_defined b = true ->
  exists w',
    _fit_GD_body self iter_steps (loss_l, n_iter) b w
    = (inr (loss_l ++ recorded iter_steps n_iter [iteration_loss b (weights w)], n_iter + 1), w')
    /\ weights w' = iteration_update b (weights w).
Proof.
  intros Hsteps Hdef. apply andb_true_iff in Hdef as [Hdef Htarget].
  unfold _fit_GD_body.
  rewrite (run_bind_ok _ _ _ _ _ (read_batch_run self b w Hcallable Hdef)).
  rewrite (run_bind_ok _ _ _ _ _ (encode_run self b w)).
  do 2 (erewrite run_bind_ok by reflexivity).
  assert (Hpool := pooling_after_encode self b w Hdef).
  assert (Hlabels : match ms.merging_strategy (merging_strategy self) with
                    | None => mat.duplicate_labels (batch_labels b) (fwd_lengths self b)
                    | Some _ => batch_labels b
                    end = row_labels self b) by reflexivity.
  rewrite Hlabels.
  rewrite (run_bind_ok _ _ _ _ _ Hpool).
  rewrite (run_bind_ok _ _ _ _ _ (learning_algo_call_run self a Hla _ _)).
  rewrite Hcriterion, Hoptimizer. simpl fmap at 1.
  unfold iteration_loss, iteration_update, target_or_empty, batch_target in *.
  assert (Hnz : Z.eqb iter_steps 0 = false) by (apply Z.eqb_neq; exact Hsteps).
  assert (Hone : forall x : spec_float,
            recorded iter_steps n_iter [x]
            = if Z.eqb ((n_iter + 1) mod iter_steps) 0 then [x] else []) by reflexivity.
  rewrite Hone.
  destruct (loss_cls c);
    [destruct (torch.one_hot (row_labels self b)) as [e | m]; [discriminate |]
    |destruct (torch.one_hot (row_labels self b)) as [e | m]; [discriminate |] |];
    cbv [fmap M_fmap result_fmap lift mbind M_bind mret M_ret get_weights set_weights
         after_batch weights print emit raise throw];
    rewrite Hnz; destruct (Z.eqb ((n_iter + 1) mod iter_steps) 0);
    eexists; (split; [try rewrite app_nil_r; reflexivity | reflexivity]).
Qed.

Lemma fit_GD_loop_run (iter_steps : Z) (bs : list batch) :
  iter_steps <> 0 ->
  Forall (fun b => iteration_defined b = true) bs ->
  forall (loss_l : list spec_float) (n_iter : Z) w,
  exists w',
    for_acc bs (_fit_GD_body self iter_steps) (loss_l, n_iter) w
    = (inr (loss_l ++ recorded iter_steps n_iter (losses bs (weights w)),
            n_iter + Z.of_nat (length bs)), w')
    /\ weights w' = trained bs (weights w).
Proof.
  intros Hsteps. induction 1 as [|b bs Hb _ IH]; intros loss_l n_iter w.
  - exists w. simpl. rewrite app_nil_r, Z.add_0_r. split; reflexivity.
  - destruct (fit_GD_body_run iter_steps loss_l n_iter b w Hsteps Hb) as (w1 & Hrun & Hw1).
    destruct (IH (loss_l ++ recorded iter_steps n_iter [iteration_loss b (weights w)])
                (n_iter + 1) w1) as (w' & Hloop & Hw').
    exists w'. rewrite for_acc_cons, (run_bind_ok _ _ _ _ _ Hrun), Hloop, Hw', Hw1.
    split; [| reflexivity]. simpl losses. simpl length.
    rewrite <- app_assoc.
    change (iteration_loss b (weights w) :: losses bs (iteration_update b (weights w)))
      with ([iteration_loss b (weights w)] ++ losses bs (iteration_update b (weights w))).
    rewrite recorded_app. simpl length.
    do 3 f_equal. lia.
Qed.

(** The nested loops count the iterations globally: they are one loop
    over the batches of all the epochs. *)
Lemma epochs_flat {S : Type} (dl : nat -> list batch) (body : S -> batch -> M W S)
    (epochs : list nat) (acc : S) w :
  for_acc epochs (fun acc epoch => for_acc (dl epoch) body acc) acc w
  = for_acc (concat (map dl epochs)) body acc w.
Proof.
  revert acc w. induction epochs as [|e epochs IH]; intros acc w; [reflexivity |].
  rewrite for_acc_cons. simpl map. simpl concat. rewrite for_acc_app.
  apply run_bind_ext; [reflexivity | intros acc' w1; apply IH].
Qed.

(** The batches of all the iterations, in order. *)
Definition iterations (dl : nat -> list batch) (epochs : Z) : list batch :=
  concat (map dl (seq 0 (Z.to_nat epochs))).

Lemma fit_GD_run (dl : nat -> list batch) (epochs iter_steps : Z) w :
  iter_steps <> 0 ->
  Forall (fun b => iteration_defined b = true) (iterations dl epochs) ->
  exists w',
    _fit_GD self dl epochs iter_steps w
    = (inr (Some (recorded iter_steps 0 (losses (iterations dl epochs) (weights w)))), w')
    /\ weights w' = trained (iterations dl epochs) (weights w).
Proof.
  intros Hsteps Hdef. unfold _fit_GD.
  rewrite run_bind. unfold print at 1, emit at 1. cbv beta iota.
  rewrite run_bind, epochs_flat.
  destruct (fit_GD_loop_run iter_steps _ Hsteps Hdef [] 0
              {| heap := heap w; weights := weights w;
                 trace := trace w ++ [Print (Text "Performing gradient descent...")] |})
    as (w1 & Hloop & Hw1).
  fold (iterations dl epochs). rewrite Hloop. cbv beta iota.
  eexists. split; [reflexivity |]. exact Hw1.
Qed.

End Iterative.

(** ** Batches that make the loops raise *)

Section Raises.

Context {W : Type}.
Variable self : EchoStateNetwork W.
Implicit Types w : world W.

Lemma encode_returns (t : text) w : exists r w', encode self t w = (inr r, w').
Proof.
  unfold encode, layer_forward, layer_reverse_forward.
  destruct (res.forward (layer self) t) as [fwd lengths].
  destruct (res.reverse_forward (layer self) t) as [bwd lengths'].
  destruct (bidirectional self); do 2 eexists; reflexivity.
Qed.

(** A Keyed batch without the key [labels]: the lookup of line 423 (196,
    265) raises before anything else is done. *)
Lemma read_batch_no_labels (d : gmap string value) w :
  res.embedding_callable (layer self) = true ->
  d !! "labels" = None ->
  read_batch self (Keyed d) w = (inl (KeyError "labels"), w).
Proof.
  intros Hcall Hd. unfold read_batch. rewrite Hcall.
  rewrite run_bind, run_lift. unfold getitem. rewrite Hd. reflexivity.
Qed.

(** An Attributed batch: the local [additional_fts] is never assigned. *)
Lemma read_batch_attributed (a : gmap string value) (t label : value) w :
  res.embedding_callable (layer self) = false ->
  a !! "text" = Some t ->
  a !! "label" = Some label ->
  read_batch self (Attributed a) w = (inr (TextValue t, label, None), w).
Proof.
  intros Hcall Ht Hl. unfold read_batch. rewrite Hcall.
  rewrite run_bind, run_lift. unfold getattr. rewrite Ht, Hl. reflexivity.
Qed.

Section Attributed.

Variables (a : gmap string value) (t : value) (l : list Z).
Hypothesis Hcall : res.embedding_callable (layer self) = false.
Hypothesis Htext : a !! "text" = Some t.
Hypothesis Hlabel : a !! "label" = Some (VLabels l).

Lemma fit_direct_body_unbound (acc : list (list (list spec_float)) * list value) w :
  fst (_fit_direct_body self acc (Attributed a) w) = inl (UnboundLocalError "additional_fts").
Proof.
  unfold _fit_direct_body. destruct acc as [states_l labels_l].
  rewrite (run_bind_ok _ _ _ _ _ (read_batch_attributed a t _ w Hcall Htext Hlabel)).
  destruct (encode_returns (TextValue t) w) as ([[states lengths] reversed] & w1 & Henc).
  rewrite (run_bind_ok _ _ _ _ _ Henc).
  destruct (ms.merging_strategy (merging_strategy self)); reflexivity.
Qed.

Lemma fit_GD_body_unbound (iter_steps : Z) (acc : list spec_float * Z) w :
  fst (_fit_GD_body self iter_steps acc (Attributed a) w)
  = inl (UnboundLocalError "additional_fts").
Proof.
  unfold _fit_GD_body. destruct acc as [loss_l n_iter].
  rewrite (run_bind_ok _ _ _ _ _ (read_batch_attributed a t _ w Hcall Htext Hlabel)).
  destruct (encode_returns (TextValue t) w) as ([[states lengths] reversed] & w1 & Henc).
  rewrite (run_bind_ok _ _ _ _ _ Henc).
  reflexivity.
Qed.

Lemma predict_body_unbound (st : predict_locals) w :
  fst (predict_body self st (Attributed a) w) = inl (UnboundLocalError "additional_fts").
Proof.
  unfold predict_body.
  rewrite (run_bind_ok _ _ _ _ _ (read_batch_attributed a t _ w Hcall Htext Hlabel)).
  destruct (encode_returns (TextValue t) w) as ([[states lengths] reversed] & w1 & Henc).
  rewrite (run_bind_ok _ _ _ _ _ Henc).
  reflexivity.
Qed.

End Attributed.

Lemma run_bind_raises {A B : Type} (m : M W A) (k : A -> M W B) w e :
  fst (m w) = inl e -> fst ((m ≫= k) w) = inl e.
Proof.
  intros H. rewrite run_bind. destruct (m w) as [[e' | x] w1]; simpl in *; congruence.
Qed.

Lemma for_acc_raises {A S : Type} (x : A) (l : list A) (body : S -> A -> M W S) (acc : S) w e :
  fst (body acc x w) = inl e -> fst (for_acc (x :: l) body acc w) = inl e.
Proof. intros H. rewrite for_acc_cons. apply run_bind_raises, H. Qed.

End Raises.

(** ** The lengths of the reverse pass *)

Section ReverseLengths.

Context {W : Type}.
Variable self : EchoStateNetwork W.
Implicit Types w : world W.

(** The same network with another reverse pass. *)
Definition with_reverse_forward (rf : text -> list (list (list spec_float)) * list nat)
    : EchoStateNetwork W :=
  {| layer := {| res.embedding_callable := res.embedding_callable (layer self);
                 res.forward := res.forward (layer self);
                 res.reverse_forward := rf |};
     merging_strategy := merging_strategy self;
     device := device self;
     learning_algo := learning_algo self;
     criterion := criterion self;
     optimizer := optimizer self;
     bidirectional := bidirectional self |}.

Variable rf : text -> list (list (list spec_float)) * list nat.
Hypothesis Hstates : forall t, fst (rf t) = fst (res.reverse_forward (layer self) t).

Lemma for_acc_ext {A S : Type} (l : list A) (body body' : S -> A -> M W S) :
  (forall acc x w, body acc x w = body' acc x w) ->
  forall acc w, for_acc l body acc w = for_acc l body' acc w.
Proof.
  intros Hbody. induction l as [|x l IH]; intros acc w; [reflexivity |].
  rewrite !for_acc_cons. apply run_bind_ext; [apply Hbody | intros; apply IH].
Qed.

Lemma encode_reverse_lengths (t : text) w :
  encode (with_reverse_forward rf) t w = encode self t w.
Proof.
  unfold encode. apply run_bind_ext; [reflexivity |]. intros [states lengths] w1.
  apply run_bind_ext; [| reflexivity].
  change (bidirectional (with_reverse_forward rf)) with (bidirectional self).
  destruct (bidirectional self); [| reflexivity].
  unfold layer_reverse_forward. simpl res.reverse_forward.
  specialize (Hstates t).
  destruct (rf t) as [s1 l1]. destruct (res.reverse_forward (layer self) t) as [s2 l2].
  simpl in Hstates. subst s2. reflexivity.
Qed.

Lemma fit_direct_body_reverse_lengths acc (b : batch) w :
  _fit_direct_body (with_reverse_forward rf) acc b w = _fit_direct_body self acc b w.
Proof.
  unfold _fit_direct_body. destruct acc as [states_l labels_l].
  apply run_bind_ext; [reflexivity |]. intros [[batch_text batch_label] additional_fts] w1.
  apply run_bind_ext; [apply encode_reverse_lengths | reflexivity].
Qed.

Lemma fit_GD_body_reverse_lengths (iter_steps : Z) acc (b : batch) w :
  _fit_GD_body (with_reverse_forward rf) iter_steps acc b w
  = _fit_GD_body self iter_steps acc b w.
Proof.
  unfold _fit_GD_body. destruct acc as [loss_l n_iter].
  apply run_bind_ext; [reflexivity |]. intros [[batch_text batch_label] additional_fts] w1.
  apply run_bind_ext; [apply encode_reverse_lengths | reflexivity].
Qed.

Lemma predict_body_reverse_lengths st (b : batch) w :
  predict_body (with_reverse_forward rf) st b w = predict_body self st b w.
Proof.
  unfold predict_body.
  apply run_bind_ext; [reflexivity |]. intros [[batch_text batch_label] additional_fts] w1.
  apply run_bind_ext; [apply encode_reverse_lengths | reflexivity].
Qed.

Lemma fit_direct_reverse_lengths (dl : list batch) w :
  _fit_direct (with_reverse_forward rf) dl w = _fit_direct self dl w.
Proof.
  unfold _fit_direct. apply run_bind_ext; [reflexivity |]. intros _ w1.
  apply run_bind_ext; [| reflexivity].
  apply for_acc_ext. intros; apply fit_direct_body_reverse_lengths.
Qed.

Lemma fit_GD_reverse_lengths (dl : nat -> list batch) (epochs iter_steps : Z) w :
  _fit_GD (with_reverse_forward rf) dl epochs iter_steps w
  = _fit_GD self dl epochs iter_steps w.
Proof.
  unfold _fit_GD. apply run_bind_ext; [reflexivity |]. intros _ w1.
  apply run_bind_ext; [| reflexivity].
  apply for_acc_ext. intros acc epoch w2.
  apply for_acc_ext. intros; apply fit_GD_body_reverse_lengths.
Qed.

Lemma predict_reverse_lengths (dl : list batch) (verbose : bool) w :
  predict (with_reverse_forward rf) dl verbose w = predict self dl verbose w.
Proof.
  unfold predict. apply run_bind_ext; [| reflexivity].
  apply for_acc_ext. intros; apply predict_body_reverse_lengths.
Qed.

End ReverseLengths.

(** * A small network to run the code on *)

Module Toy.

(** The token matrix of a batch text. *)
Definition tokens (t : text) : list (list Z) :=
  match t with
  | TextBatch (Keyed d) | TextBatch (Attributed d) =>
      match d !! "input_ids" with Some (VTokens m) => m | _ => [] end
  | TextValue (VTokens m) => m
  | TextValue _ => []
  end.

(** Token [0] is padding; the true length counts the other tokens. *)
Definition true_length (row : list Z) : nat := length (filter (fun z => negb (Z.eqb z 0)) row).

(** The kernel of the mean: the values are added from the first to the
    last, and the sum is divided by their number. *)
Definition cpu : torch.device :=
  {| torch.mean := fun column =>
       SFdiv 24 128 (fold_left (SFadd 24 128) column (S754_zero false))
         (torch.float (Z.of_nat (length column))) |}.

(** The state of a token has two features. *)
Definition state (z : Z) : list spec_float := [torch.float z; torch.float (3 - z)].

Definition forward (t : text) : list (list (list spec_float)) * list nat :=
  (map (map state) (tokens t), map true_length (tokens t)).

(** The reverse pass reads the true tokens of each sequence backwards. *)
Definition reverse_forward (t : text) : list (list (list spec_float)) * list nat :=
  (map (fun row => map state (rev (take (true_length row) row) ++ drop (true_length row) row))
       (tokens t),
   map true_length (tokens t)).

Definition keyed_layer : res.Layer :=
  {| res.embedding_callable := true; res.forward := forward;
     res.reverse_forward := reverse_forward |}.

Definition attributed_layer : res.Layer :=
  {| res.embedding_callable := false; res.forward := forward;
     res.reverse_forward := reverse_forward |}.

(** Without a tag the reduction lists the true token rows of all the
    sequences; with a tag it keeps the last true row of each sequence.
    Extra features, when they are passed, are appended row by row. *)
Definition reduce (tag : option string) (states : option (list (list (list spec_float))))
    (lengths : list nat) (texts : text) (additional_fts : opt_arg) : list (list spec_float) :=
  let s := default [] states in
  let merged :=
    match tag with
    | None => concat (zip_with take lengths s)
    | Some _ => zip_with (fun l x => default [] (last (take l x))) lengths s
    end in
  match additional_fts with
  | Passed (VFeatures f) => zip_with app merged f
  | _ => merged
  end.

Definition pooling (tag : option string) : ms.MergingStrategy :=
  {| ms.merging_strategy := tag; ms.call := reduce tag |}.

(** The weights are one integer, added to every score. *)
Definition scores (wt : Z) (states : list (list spec_float)) : raw :=
  Raw2 (map (map (fun s => SFadd 24 128 s (torch.float wt))) states).

Definition ridge : la.LearningAlgo Z :=
  {| la.mro := ["RidgeRegression"; "Module"; "object"];
     la.fit := fun wt states labels => wt + Z.of_nat (length states);
     la.call := scores |}.

Definition logistic : la.LearningAlgo Z :=
  {| la.mro := ["LogisticRegression"; "Module"; "object"];
     la.fit := fun wt states labels => wt;
     la.call := scores |}.

(** A readout of a class that the package does not know. *)
Definition perceptron : la.LearningAlgo Z :=
  {| la.mro := ["Perceptron"; "Module"; "object"];
     la.fit := fun wt states labels => wt;
     la.call := scores |}.

(** A readout whose scores are the states. *)
Definition identity : la.LearningAlgo Z :=
  {| la.mro := ["LogisticRegression"; "Module"; "object"];
     la.fit := fun wt states labels => wt;
     la.call := fun wt states => Raw2 states |}.

(** A readout that returns class ids: the integer part of the first
    feature. *)
Definition classes : la.LearningAlgo Z :=
  {| la.mro := ["LinearSVC"; "Module"; "object"];
     la.fit := fun wt states labels => wt;
     la.call := fun wt states =>
       RawIds (map (fun r => torch.to_int64 (nth 0 r torch.nan)) states) |}.


(** The loss is the first score of the first row. *)
Definition cross_entropy : Criterion :=
  {| loss_cls := OtherLoss;
     loss_call := fun outputs labels =>
       match outputs with
       | Raw2 (r :: _) => nth 0 r torch.nan
       | _ => torch.nan
       end |}.

(** A step of the optimizer adds one to the weights. *)
Definition sgd : Optimizer Z := {| update := fun wt states labels => wt + 1 |}.

Definition network (l : res.Layer) (tag : option string) (a : la.LearningAlgo Z)
    (bidirectional : bool) : EchoStateNetwork Z :=
  {| device := cpu; layer := l; merging_strategy := pooling tag; learning_algo := Some a;
     criterion := Some cross_entropy; optimizer := Some sgd;
     bidirectional := bidirectional |}.

(** Two sequences of lengths 2 and 3, padded to 3 tokens. *)
Definition input_ids : value := VTokens [[1; 2; 0]; [2; 1; 2]].

Definition labelled : batch :=
  Keyed (<["input_ids" := input_ids]> (<["labels" := VLabels [0; 1]]> ∅)).

Definition with_features : batch :=
  Keyed (<["input_ids" := input_ids]>
         (<["labels" := VLabels [0; 1]]>
          (<["additional_fts" := VFeatures [[torch.float 7]; [torch.float 8]]]> ∅))).

Definition unlabelled : batch := Keyed (<["input_ids" := input_ids]> ∅).

Definition torchtext : batch :=
  Attributed (<["text" := input_ids]> (<["label" := VLabels [0; 1]]> ∅)).

Definition w0 : world Z := {| heap := []; weights := 0; trace := [] |}.

End Toy.

(** * The claims *)

Lemma forallb_Forall {A : Type} (f : A -> bool) (l : list A) :
  forallb f l = true -> Forall (fun x => f x = true) l.
Proof.
  induction l as [|x l IH]; simpl; [constructor |].
  intros H. apply andb_true_iff in H as [Hx Hl]. constructor; auto.
Qed.

(** The readout calls of a trace that are closed-form fits. *)
Definition fit_calls (t : list event) : list (list (list spec_float) * list Z) :=
  omap (fun e => match e with Fit x y => Some (x, y) | _ => None end) t.

Lemma fit_calls_app (t1 t2 : list event) : fit_calls (t1 ++ t2) = fit_calls t1 ++ fit_calls t2.
Proof. apply omap_app. Qed.

Lemma fit_calls_batches {W : Type} (self : EchoStateNetwork W) (dl : list batch) :
  fit_calls (concat (map (batch_events self) dl)) = [].
Proof.
  induction dl as [|b dl IH]; [reflexivity |].
  change (concat (map ?f (b :: dl))) with (f b ++ concat (map f dl)).
  rewrite fit_calls_app, IH, app_nil_r.
  unfold batch_events, encode_events, pooling_events.
  destruct (bidirectional self); [destruct (ms.merging_strategy (merging_strategy self)) |];
    reflexivity.
Qed.

(** The test of [fit]: is the readout an instance of one of the four
    classes that have a closed-form solution? *)
Definition closed_form {W : Type} (self : EchoStateNetwork W) : bool :=
  isinstance (learning_algo self) la.RidgeRegression
  || isinstance (learning_algo self) la.RidgeRegression_skl
  || isinstance (learning_algo self) la.LogisticRegression_skl
  || isinstance (learning_algo self) la.LinearSVC.

Section Claims.

Context {W : Type}.
Implicit Types self : EchoStateNetwork W.
Implicit Types w : world W.

(** C1, as the code has it.  A readout whose classes include none of
    [RidgeRegression], [RidgeRegression_skl], [LogisticRegression_skl]
    and [LinearSVC] is trained by gradient descent: [fit] is [_fit_GD].
    There is no third outcome. *)
Theorem fit_dispatch_else_gradient_descent self (a : la.LearningAlgo W)
    (train_dataloader : nat -> list batch) (epochs iter_steps : Z) w :
  learning_algo self = Some a ->
  la.RidgeRegression ∉ la.mro a ->
  la.RidgeRegression_skl ∉ la.mro a ->
  la.LogisticRegression_skl ∉ la.mro a ->
  la.LinearSVC ∉ la.mro a ->
  closed_form self = false
  /\ fit self train_dataloader epochs iter_steps w
     = _fit_GD self train_dataloader epochs iter_steps w.
Proof.
  intros Hla H1 H2 H3 H4.
  assert (Hcf : closed_form self = false).
  { unfold closed_form, isinstance. rewrite Hla.
    rewrite !bool_decide_eq_false_2 by assumption. reflexivity. }
  split; [exact Hcf |]. unfold fit. fold (closed_form self). rewrite Hcf. reflexivity.
Qed.

(** C2, as the code has it.  Bidirectional without pooling: a clone of
    the reversed states gets the first [lengths[i]] time rows of every
    sequence [i] put back in forward order, the rows from [lengths[i]] on
    staying as they are; the forward states and the clone are joined
    along the feature axis; the reduction is called once, on the result,
    and the extra features are not passed to it.  The reversed states
    themselves are not written. *)
Theorem bidirectional_without_pooling self
    (states r : nat) (fwd bwd : list (list (list spec_float)))
    (lengths : list nat) (texts : text) (additional_fts : value) w :
  bidirectional self = true ->
  ms.merging_strategy (merging_strategy self) = None ->
  heap w !! states = Some fwd ->
  heap w !! r = Some bwd ->
  (length lengths <= length bwd)%nat ->
  torch.same_shape2 fwd bwd = true ->
  let restored := unreverse lengths bwd in
  let concatenated := zip_with (zip_with app) fwd restored in
  let w' := {| heap := heap w ++ [restored; concatenated];
               weights := weights w;
               trace := trace w ++ [Merge (Some concatenated) lengths texts Omitted] |} in
  _apply_pooling_strategy self states lengths texts (Some r) additional_fts w
  = (inr (ms.call (merging_strategy self) (Some concatenated) lengths texts Omitted), w')
  /\ heap w' !! r = Some bwd
  /\ (forall i l x, lengths !! i = Some l -> bwd !! i = Some x ->
        exists y, restored !! i = Some y
          /\ length y = length x
          /\ (forall t, (l <= t)%nat -> y !! t = x !! t)
          /\ (forall t, (t < Nat.min l (length x))%nat ->
                y !! t = x !! (Nat.min l (length x) - 1 - t)%nat))
  /\ (forall i, (length lengths <= i)%nat -> restored !! i = bwd !! i).
Proof. apply restored_both_ways_run. Qed.

(** C3.  A Keyed batch without the key [labels] makes [predict] raise
    [KeyError]: the lookup is made before the [try] block, so the batch
    is not treated as inference-only and no predictions are returned. *)
Theorem predict_without_labels_raises self (d : gmap string value) (rest : list batch)
    (verbose : bool) w :
  res.embedding_callable (layer self) = true ->
  d !! "labels" = None ->
  predict self (Keyed d :: rest) verbose w = (inl (KeyError "labels"), w).
Proof.
  intros Hcall Hd. unfold predict.
  apply run_bind_err. rewrite for_acc_cons. apply run_bind_err.
  unfold predict_body. apply run_bind_err, read_batch_no_labels; assumption.
Qed.

(** C4.  With an Attributed batch the local [additional_fts] is never
    assigned, and the two trainers and [predict] raise
    [UnboundLocalError] when they pass it to the pooling. *)
Theorem attributed_batch_raises_unbound_local self (a : gmap string value) (t : value)
    (l : list Z) (rest : list batch) (train_dataloader : nat -> list batch)
    (epochs iter_steps : Z) (verbose : bool) w :
  res.embedding_callable (layer self) = false ->
  a !! "text" = Some t ->
  a !! "label" = Some (VLabels l) ->
  a !! "additional_fts" = None ->
  0 < epochs ->
  train_dataloader 0%nat = Attributed a :: rest ->
  fst (_fit_direct self (Attributed a :: rest) w) = inl (UnboundLocalError "additional_fts")
  /\ fst (_fit_GD self train_dataloader epochs iter_steps w)
     = inl (UnboundLocalError "additional_fts")
  /\ fst (predict self (Attributed a :: rest) verbose w)
     = inl (UnboundLocalError "additional_fts").
Proof.
  intros Hcall Ht Hl _ Hepochs Hdl. split; [| split].
  - unfold _fit_direct. rewrite run_bind. unfold print at 1, emit at 1. cbv beta iota.
    apply run_bind_raises, for_acc_raises.
    apply (fit_direct_body_unbound self a t l Hcall Ht Hl).
  - unfold _fit_GD. rewrite run_bind. unfold print at 1, emit at 1. cbv beta iota.
    apply run_bind_raises.
    destruct (Z.to_nat epochs) as [|n] eqn:Hn; [lia |].
    simpl seq. apply for_acc_raises. rewrite Hdl. apply for_acc_raises.
    apply (fit_GD_body_unbound self a t l Hcall Ht Hl).
  - unfold predict. apply run_bind_raises, for_acc_raises.
    apply (predict_body_unbound self a t l Hcall Ht Hl).
Qed.

(** C7.  [fit] returns [None] on the closed-form path and the list of
    recorded losses on the iterative path.  With [N] iterations counted
    over all epochs and batches, the list has [N / iter_steps] entries,
    and entry [k] is the loss of iteration [(k + 1) * iter_steps]; so
    250 iterations with [iter_steps = 100] give two entries, the losses
    of iterations 100 and 200. *)
Theorem fit_result_by_path
    (direct iterative : EchoStateNetwork W)
    (a_direct a_iterative : la.LearningAlgo W) (c : Criterion) (o : Optimizer W)
    (train : list batch) (train_dataloader : nat -> list batch)
    (epochs iter_steps : Z) w :
  res.embedding_callable (layer direct) = true ->
  learning_algo direct = Some a_direct ->
  closed_form direct = true ->
  train <> [] ->
  forallb (batch_defined direct) train = true ->
  torch.rectangular (concat (map (final_states direct) train)) = true ->
  res.embedding_callable (layer iterative) = true ->
  learning_algo iterative = Some a_iterative ->
  closed_form iterative = false ->
  criterion iterative = Some c ->
  optimizer iterative = Some o ->
  0 < iter_steps ->
  forallb (iteration_defined iterative c) (iterations train_dataloader epochs) = true ->
  let its := iterations train_dataloader epochs in
  let all_losses := losses iterative a_iterative c o its (weights w) in
  fst (fit direct (fun _ => train) epochs iter_steps w) = inr None
  /\ exists loss_l,
       fst (fit iterative train_dataloader epochs iter_steps w) = inr (Some loss_l)
       /\ length all_losses = length its
       /\ Z.of_nat (length loss_l) = Z.of_nat (length its) / iter_steps
       /\ (forall k, (k < length loss_l)%nat ->
             loss_l !! k = all_losses !! Z.to_nat ((Z.of_nat k + 1) * iter_steps - 1))
       /\ (iter_steps = 100 -> length its = 250%nat ->
             exists l100 l200,
               loss_l = [l100; l200]
               /\ all_losses !! 99%nat = Some l100
               /\ all_losses !! 199%nat = Some l200).
Proof.
  intros Hcall Hla Hcf Hne Hdef Hrect Hcall' Hla' Hcf' Hcrit Hopt Hsteps Hits its all_losses.
  apply forallb_Forall in Hdef, Hits.
  split.
  - unfold fit. fold (closed_form direct). rewrite Hcf.
    rewrite (fit_direct_run direct Hcall a_direct train w Hla Hne Hdef Hrect). reflexivity.
  - destruct (fit_GD_run iterative a_iterative c o Hcall' Hla' Hcrit Hopt
                train_dataloader epochs iter_steps w ltac:(lia) Hits) as (w' & Hrun & _).
    fold its in Hrun. fold all_losses in Hrun.
    exists (recorded iter_steps 0 all_losses).
    destruct (recorded_spec iter_steps all_losses Hsteps 0 ltac:(lia)) as [Hlen Hget].
    assert (Hall : length all_losses = length its) by apply losses_length.
    rewrite Z.div_0_l, Z.sub_0_r, Z.add_0_l in Hlen by lia.
    split; [| split; [| split; [| split]]].
    + unfold fit. fold (closed_form iterative). rewrite Hcf', Hrun. reflexivity.
    + exact Hall.
    + rewrite Hlen, Hall. reflexivity.
    + intros k Hk. rewrite (Hget k Hk). rewrite Z.div_0_l by lia. do 2 f_equal. lia.
    + intros -> H250. rewrite Hall, H250 in Hlen. change (Z.of_nat 250 / 100) with 2 in Hlen.
      destruct (recorded 100 0 all_losses) as [|l100 [|l200 [|l300 rest]]] eqn:Hrec;
        simpl in Hlen; try lia.
      exists l100, l200. split; [reflexivity |].
      pose proof (Hget 0%nat ltac:(simpl; lia)) as H0.
      pose proof (Hget 1%nat ltac:(simpl; lia)) as H1.
      simpl in H0, H1. split; [symmetry; exact H0 | symmetry; exact H1].
Qed.

(** C8.  Closed-form training calls the [fit] of the readout once,
    after the last batch has been encoded and pooled, on the merged
    states of all the batches joined along the row axis and on their
    labels joined in the same order. *)
Theorem fit_direct_fits_once self (a : la.LearningAlgo W) (train_dataloader : list batch) w :
  res.embedding_callable (layer self) = true ->
  learning_algo self = Some a ->
  train_dataloader <> [] ->
  forallb (batch_defined self) train_dataloader = true ->
  torch.rectangular (concat (map (final_states self) train_dataloader)) = true ->
  let all_states := concat (map (final_states self) train_dataloader) in
  let all_labels := concat (map (row_labels self) train_dataloader) in
  exists w',
    _fit_direct self train_dataloader w = (inr None, w')
    /\ trace w' = trace w
                  ++ [Print (Text "Computing closed-form solution...")]
                  ++ concat (map (batch_events self) train_dataloader)
                  ++ [Fit all_states all_labels; Print (Text "Training complete.")]
    /\ fit_calls (trace w') = fit_calls (trace w) ++ [(all_states, all_labels)]
    /\ weights w' = la.fit a (weights w) all_states all_labels.
Proof.
  intros Hcall Hla Hne Hdef Hrect all_states all_labels.
  apply forallb_Forall in Hdef.
  eexists. split; [apply (fit_direct_run self Hcall a train_dataloader w Hla Hne Hdef Hrect) |].
  cbn [trace weights]. split; [reflexivity | split; [| reflexivity]].
  rewrite !fit_calls_app, fit_calls_batches. reflexivity.
Qed.

(** C9.  Bidirectional with pooling: the reduction is called on the
    forward states with the extra features, then on the reversed states
    without them, and the two pooled results are joined along the
    feature axis, forward features first. *)
Theorem bidirectional_with_pooling self
    (tag : string) (states r : nat) (fwd bwd : list (list (list spec_float)))
    (lengths : list nat) (texts : text) (additional_fts : value) w :
  bidirectional self = true ->
  ms.merging_strategy (merging_strategy self) = Some tag ->
  heap w !! states = Some fwd ->
  heap w !! r = Some bwd ->
  let normal := ms.call (merging_strategy self) (Some fwd) lengths texts (Passed additional_fts) in
  let reversed := ms.call (merging_strategy self) (Some bwd) lengths texts Omitted in
  _apply_pooling_strategy self states lengths texts (Some r) additional_fts w
  = (torch.cat_dim1 normal reversed,
     with_trace (trace w ++ [Merge (Some fwd) lengths texts (Passed additional_fts);
                             Merge (Some bwd) lengths texts Omitted]) w)
  /\ (length normal = length reversed ->
      torch.cat_dim1 normal reversed = inr (zip_with app normal reversed))
  /\ (forall i x y, normal !! i = Some x -> reversed !! i = Some y ->
        zip_with app normal reversed !! i = Some (x ++ y)).
Proof. apply pooled_both_ways_run. Qed.

(** C10.  The lengths that the reverse pass returns are dropped: the two
    trainers and [predict] do the same whatever lengths it reports.  The
    forward lengths are the ones used to put the reversed rows back in
    order and to pool the reversed states. *)
Theorem reverse_lengths_discarded self (rf : text -> list (list (list spec_float)) * list nat) :
  (forall t, fst (rf t) = fst (res.reverse_forward (layer self) t)) ->
  (forall dl w, _fit_direct (with_reverse_forward self rf) dl w = _fit_direct self dl w)
  /\ (forall dl epochs iter_steps w,
        _fit_GD (with_reverse_forward self rf) dl epochs iter_steps w
        = _fit_GD self dl epochs iter_steps w)
  /\ (forall dl verbose w,
        predict (with_reverse_forward self rf) dl verbose w = predict self dl verbose w)
  /\ (forall b states_l labels_l w,
        bidirectional self = true ->
        res.embedding_callable (layer self) = true ->
        batch_defined self b = true ->
        let lengths := snd (res.forward (layer self) (TextBatch b)) in
        let fwd := fst (res.forward (layer self) (TextBatch b)) in
        let bwd := fst (res.reverse_forward (layer self) (TextBatch b)) in
        trace (snd (_fit_direct_body self (states_l, labels_l) b w))
        = trace w
          ++ [Forward (TextBatch b); ReverseForward (TextBatch b)]
          ++ match ms.merging_strategy (merging_strategy self) with
             | None =>
                 [Merge (Some (zip_with (zip_with app) fwd (unreverse lengths bwd)))
                        lengths (TextBatch b) Omitted]
             | Some _ =>
                 [Merge (Some fwd) lengths (TextBatch b) (Passed (batch_fts b));
                  Merge (Some bwd) lengths (TextBatch b) Omitted]
             end).
Proof.
  intros Hstates. split; [| split; [| split]].
  - intros dl w. apply fit_direct_reverse_lengths, Hstates.
  - intros dl epochs iter_steps w. apply fit_GD_reverse_lengths, Hstates.
  - intros dl verbose w. apply predict_reverse_lengths, Hstates.
  - intros b states_l labels_l w Hbi Hcall Hdef lengths fwd bwd.
    rewrite (fit_direct_body_run self Hcall states_l labels_l b w Hdef).
    unfold after_batch, batch_events, encode_events, pooling_events. cbn [snd trace].
    rewrite Hbi. destruct (ms.merging_strategy (merging_strategy self)); reflexivity.
Qed.

End Claims.

(** * The claims on the small network *)

(** A network with a readout class that the package does not know. *)
Definition unknown_readout : EchoStateNetwork Z :=
  Toy.network Toy.keyed_layer (Some "last"%string) Toy.perceptron false.

Definition ridge_readout : EchoStateNetwork Z :=
  Toy.network Toy.keyed_layer (Some "last"%string) Toy.ridge false.

Definition both_ways_pooled : EchoStateNetwork Z :=
  Toy.network Toy.keyed_layer (Some "last"%string) Toy.logistic true.

Definition both_ways_unpooled : EchoStateNetwork Z :=
  Toy.network Toy.keyed_layer None Toy.logistic true.

Definition one_way_unpooled : EchoStateNetwork Z :=
  Toy.network Toy.keyed_layer None Toy.logistic false.

Definition torchtext_network : EchoStateNetwork Z :=
  Toy.network Toy.attributed_layer (Some "last"%string) Toy.logistic false.

(** The world after the two passes of the layer over [Toy.with_features]. *)
Definition encoded : world Z :=
  {| heap := [fst (Toy.forward (TextBatch Toy.with_features));
              fst (Toy.reverse_forward (TextBatch Toy.with_features))];
     weights := 0;
     trace := [] |}.

Definition extra_features : value := VFeatures [[torch.float 7]; [torch.float 8]].

(** Five token rows of two scores, for sequences of lengths 2 and 3. *)
Definition token_scores : list (list spec_float) :=
  map (map torch.float) [[1; 2]; [3; 2]; [2; 1]; [0; 3]; [1; 2]].

(** Closed side conditions: a boolean is computed, an equation between
    records or closures is checked as it stands. *)
Ltac evaluate :=
  lazymatch goal with
  | |- @eq bool _ _ => vm_compute; reflexivity
  | |- _ <> _ => discriminate
  | |- _ => first [reflexivity | lia]
  end.

Lemma not_in_mro (cls : string) (a : la.LearningAlgo Z) :
  bool_decide (cls ∈ la.mro a) = false -> cls ∉ la.mro a.
Proof. apply bool_decide_eq_false. Defined.

Lemma fit_dispatch_else_gradient_descent_witness :
  closed_form unknown_readout = false
  /\ fit unknown_readout (fun _ => [Toy.labelled]) 1 100 Toy.w0
     = _fit_GD unknown_readout (fun _ => [Toy.labelled]) 1 100 Toy.w0.
Proof.
  apply (fit_dispatch_else_gradient_descent unknown_readout Toy.perceptron);
    [reflexivity | apply not_in_mro; vm_compute; reflexivity ..].
Defined.

(** C1 fails as stated: the class [Perceptron] is not one that the code
    names, and [fit] does not fail on it; it runs the gradient descent
    and returns the list of losses, empty after one iteration. *)
Lemma fit_unknown_readout_does_not_fail :
  Forall (fun cls => isinstance (learning_algo unknown_readout) cls = false)
    [la.RidgeRegression; la.RidgeRegression_skl; la.LogisticRegression_skl; la.LinearSVC]
  /\ fst (fit unknown_readout (fun _ => [Toy.labelled]) 1 100 Toy.w0) = inr (Some []).
Proof. split; [repeat constructor | vm_compute; reflexivity]. Qed.

Lemma bidirectional_without_pooling_witness :
  let self := both_ways_unpooled in
  let t := TextBatch Toy.with_features in
  let fwd := fst (Toy.forward t) in
  let bwd := fst (Toy.reverse_forward t) in
  let lengths := [2; 3]%nat in
  let restored := unreverse lengths bwd in
  let concatenated := zip_with (zip_with app) fwd restored in
  let w' := {| heap := heap encoded ++ [restored; concatenated];
               weights := weights encoded;
               trace := trace encoded ++ [Merge (Some concatenated) lengths t Omitted] |} in
  _apply_pooling_strategy self 0 lengths t (Some 1%nat) extra_features encoded
  = (inr (ms.call (merging_strategy self) (Some concatenated) lengths t Omitted), w')
  /\ heap w' !! 1%nat = Some bwd
  /\ (forall i l x, lengths !! i = Some l -> bwd !! i = Some x ->
        exists y, restored !! i = Some y
          /\ length y = length x
          /\ (forall k, (l <= k)%nat -> y !! k = x !! k)
          /\ (forall k, (k < Nat.min l (length x))%nat ->
                y !! k = x !! (Nat.min l (length x) - 1 - k)%nat))
  /\ (forall i, (length lengths <= i)%nat -> restored !! i = bwd !! i).
Proof.
  apply (bidirectional_without_pooling both_ways_unpooled 0 1
           (fst (Toy.forward (TextBatch Toy.with_features)))
           (fst (Toy.reverse_forward (TextBatch Toy.with_features)))
           [2; 3]%nat (TextBatch Toy.with_features) extra_features encoded);
    first [reflexivity | vm_compute; lia].
Defined.

(** C2 fails as stated: the batch has extra features, and the one call
    to the reduction leaves them out, also when the pooling is reached
    through [predict]. *)
Lemma bidirectional_without_pooling_drops_features :
  let t := TextBatch Toy.with_features in
  let run := _apply_pooling_strategy both_ways_unpooled 0 [2; 3]%nat t (Some 1%nat)
               extra_features encoded in
  (exists c, trace (snd run) = [Merge (Some c) [2; 3]%nat t Omitted])
  /\ (forall s l tx, ~ In (Merge s l tx (Passed extra_features)) (trace (snd run)))
  /\ Forall (fun e => match e with Merge _ _ _ (Passed _) => False | _ => True end)
        (trace (snd (predict both_ways_unpooled [Toy.with_features] false Toy.w0))).
Proof.
  intros t run.
  assert (H : exists c, trace (snd run) = [Merge (Some c) [2; 3]%nat t Omitted]).
  { eexists. vm_compute. reflexivity. }
  split; [exact H | split].
  - destruct H as [c Hc]. rewrite Hc. intros s l tx [Heq | []]. discriminate.
  - vm_compute. repeat constructor.
Qed.

Lemma predict_without_labels_raises_witness :
  predict ridge_readout [Toy.unlabelled] true Toy.w0 = (inl (KeyError "labels"), Toy.w0).
Proof.
  apply (predict_without_labels_raises ridge_readout
           (<["input_ids" := Toy.input_ids]> ∅) [] true Toy.w0);
    vm_compute; reflexivity.
Defined.

Lemma attributed_batch_raises_unbound_local_witness :
  fst (_fit_direct torchtext_network [Toy.torchtext] Toy.w0)
  = inl (UnboundLocalError "additional_fts")
  /\ fst (_fit_GD torchtext_network (fun _ => [Toy.torchtext]) 1 100 Toy.w0)
     = inl (UnboundLocalError "additional_fts")
  /\ fst (predict torchtext_network [Toy.torchtext] true Toy.w0)
     = inl (UnboundLocalError "additional_fts").
Proof.
  apply (attributed_batch_raises_unbound_local torchtext_network
           (<["text" := Toy.input_ids]> (<["label" := VLabels [0; 1]]> ∅))
           Toy.input_ids [0; 1] [] (fun _ => [Toy.torchtext]) 1 100 true Toy.w0);
    first [vm_compute; reflexivity | lia].
Defined.


(** Equal maxima: the scores [1/2, 1/2, 1/5] give the prediction [0]. *)
Example argmax_tie :
  let score n d := SFdiv 24 128 (torch.float n) (torch.float d) in
  torch.argmax [score 1 2; score 1 2; score 1 5] = inr 0%nat.
Proof. reflexivity. Qed.

(** The two sequences of [token_scores] average to [2, 2] and [1, 2]. *)
Example compute_predictions_without_pooling_run :
  map (torch.mean_dim0 Toy.cpu 2) (spans [2; 3]%nat token_scores)
  = map (map torch.float) [[2; 2]; [1; 2]]
  /\ fst (_compute_predictions one_way_unpooled token_scores [2; 3]%nat Toy.w0) = inr [0; 1].
Proof. split; vm_compute; reflexivity. Qed.

(** Scores that float32 holds, and whose average it does not: the two
    rows [1, 1] and [1, 1 + 2 ^ -23] average to [1, 1] on [Toy.cpu],
    since the sum [2 + 2 ^ -23] of the second column rounds to [2]; the
    prediction is [0]. *)
Example compute_predictions_rounded_tie :
  let next := S754_finite false 8388609 (-23) in
  let rows := [[torch.float 1; torch.float 1]; [torch.float 1; next]] in
  SFltb (torch.float 1) next = true
  /\ torch.mean_dim0 Toy.cpu 2 rows = [torch.float 1; torch.float 1]
  /\ fst (_compute_predictions
            (Toy.network Toy.keyed_layer None Toy.identity false) rows [2]%nat Toy.w0)
     = inr [0].
Proof. repeat split; vm_compute; reflexivity. Qed.

(** A network whose readout returns class ids as integers, and one
    whose readout returns them in one column of a tensor of two axes. *)
Definition class_ids : EchoStateNetwork Z :=
  Toy.network Toy.keyed_layer (Some "last"%string) Toy.classes false.





Example compute_predictions_with_pooling_run :
  fst (_compute_predictions both_ways_pooled token_scores [2; 3]%nat Toy.w0)
  = inr [1; 0; 0; 1; 1]
  /\ fst (_compute_predictions class_ids token_scores [2; 3]%nat Toy.w0)
     = inr [1; 3; 2; 0; 1].
Proof. split; vm_compute; reflexivity. Qed.

(** The class id [2 ^ 24 + 1] is not a float32: it is predicted as
    [2 ^ 24]. *)
Example class_id_rounded :
  torch.to_int64 (torch.float 16777217) = 16777216
  /\ torch.to_int64 (torch.float 16777216) = 16777216.
Proof. split; vm_compute; reflexivity. Qed.

(** The scores 5/2 and -5/2 are cast to 2 and -2. *)
Example score_truncated :
  let half := SFdiv 24 128 (torch.float 5) (torch.float 2) in
  torch.to_int64 half = 2 /\ torch.to_int64 (SFopp half) = - 2.
Proof. split; vm_compute; reflexivity. Qed.

Lemma fit_result_by_path_witness :
  let train_dataloader := fun _ : nat => [Toy.labelled; Toy.labelled; Toy.labelled;
                                          Toy.labelled; Toy.labelled] in
  let its := iterations train_dataloader 50 in
  let all_losses := losses unknown_readout Toy.perceptron Toy.cross_entropy Toy.sgd its
                      (weights Toy.w0) in
  fst (fit ridge_readout (fun _ => [Toy.labelled; Toy.labelled]) 50 100 Toy.w0) = inr None
  /\ exists loss_l,
       fst (fit unknown_readout train_dataloader 50 100 Toy.w0) = inr (Some loss_l)
       /\ length all_losses = length its
       /\ Z.of_nat (length loss_l) = Z.of_nat (length its) / 100
       /\ (forall k, (k < length loss_l)%nat ->
             loss_l !! k = all_losses !! Z.to_nat ((Z.of_nat k + 1) * 100 - 1))
       /\ (100 = 100 -> length its = 250%nat ->
             exists l100 l200,
               loss_l = [l100; l200]
               /\ all_losses !! 99%nat = Some l100
               /\ all_losses !! 199%nat = Some l200).
Proof.
  apply (fit_result_by_path ridge_readout unknown_readout Toy.ridge Toy.perceptron
           Toy.cross_entropy Toy.sgd [Toy.labelled; Toy.labelled]
           (fun _ : nat => [Toy.labelled; Toy.labelled; Toy.labelled;
                            Toy.labelled; Toy.labelled]) 50 100 Toy.w0);
    evaluate.
Defined.

(** The run of 250 iterations records the losses of iterations 100 and
    200: the first score, 2, plus the 99 and 199 steps made before. *)
Example fit_250_iterations :
  fst (fit unknown_readout
         (fun _ => [Toy.labelled; Toy.labelled; Toy.labelled; Toy.labelled; Toy.labelled])
         50 100 Toy.w0)
  = inr (Some [torch.float 101; torch.float 201]).
Proof. vm_compute. reflexivity. Qed.

Lemma fit_direct_fits_once_witness :
  let self := ridge_readout in
  let train_dataloader := [Toy.labelled; Toy.labelled] in
  let all_states := concat (map (final_states self) train_dataloader) in
  let all_labels := concat (map (row_labels self) train_dataloader) in
  exists w',
    _fit_direct self train_dataloader Toy.w0 = (inr None, w')
    /\ trace w' = trace Toy.w0
                  ++ [Print (Text "Computing closed-form solution...")]
                  ++ concat (map (batch_events self) train_dataloader)
                  ++ [Fit all_states all_labels; Print (Text "Training complete.")]
    /\ fit_calls (trace w') = fit_calls (trace Toy.w0) ++ [(all_states, all_labels)]
    /\ weights w' = la.fit Toy.ridge (weights Toy.w0) all_states all_labels.
Proof.
  apply (fit_direct_fits_once ridge_readout Toy.ridge [Toy.labelled; Toy.labelled] Toy.w0);
    evaluate.
Defined.

(** The design matrix and the targets of that one call. *)
Example fit_direct_design_matrix :
  fit_calls (trace (snd (_fit_direct ridge_readout [Toy.labelled; Toy.labelled] Toy.w0)))
  = [(map (map torch.float) [[2; 1]; [2; 1]; [2; 1]; [2; 1]], [0; 1; 0; 1])].
Proof. vm_compute. reflexivity. Qed.

Lemma bidirectional_with_pooling_witness :
  let self := both_ways_pooled in
  let t := TextBatch Toy.with_features in
  let fwd := fst (Toy.forward t) in
  let bwd := fst (Toy.reverse_forward t) in
  let normal := ms.call (merging_strategy self) (Some fwd) [2; 3]%nat t (Passed extra_features) in
  let reversed := ms.call (merging_strategy self) (Some bwd) [2; 3]%nat t Omitted in
  _apply_pooling_strategy self 0 [2; 3]%nat t (Some 1%nat) extra_features encoded
  = (torch.cat_dim1 normal reversed,
     with_trace (trace encoded ++ [Merge (Some fwd) [2; 3]%nat t (Passed extra_features);
                                   Merge (Some bwd) [2; 3]%nat t Omitted]) encoded)
  /\ (length normal = length reversed ->
      torch.cat_dim1 normal reversed = inr (zip_with app normal reversed))
  /\ (forall i x y, normal !! i = Some x -> reversed !! i = Some y ->
        zip_with app normal reversed !! i = Some (x ++ y)).
Proof.
  apply (bidirectional_with_pooling both_ways_pooled "last"%string 0 1
           (fst (Toy.forward (TextBatch Toy.with_features)))
           (fst (Toy.reverse_forward (TextBatch Toy.with_features)))
           [2; 3]%nat (TextBatch Toy.with_features) extra_features encoded);
    reflexivity.
Defined.

(** Forward features, the extra feature, then the reversed features. *)
Example bidirectional_with_pooling_run :
  fst (_apply_pooling_strategy both_ways_pooled 0 [2; 3]%nat (TextBatch Toy.with_features)
         (Some 1%nat) extra_features encoded)
  = inr (map (map torch.float) [[2; 1; 7; 1; 2]; [2; 1; 8; 2; 1]]).
Proof. vm_compute. reflexivity. Qed.

(** A reverse pass that reports no lengths at all. *)
Definition silent_reverse (t : text) : list (list (list spec_float)) * list nat :=
  (fst (Toy.reverse_forward t), []).

Lemma reverse_lengths_discarded_witness :
  let self := both_ways_unpooled in
  (forall dl w, _fit_direct (with_reverse_forward self silent_reverse) dl w
                = _fit_direct self dl w)
  /\ (forall dl epochs iter_steps w,
        _fit_GD (with_reverse_forward self silent_reverse) dl epochs iter_steps w
        = _fit_GD self dl epochs iter_steps w)
  /\ (forall dl verbose w,
        predict (with_reverse_forward self silent_reverse) dl verbose w
        = predict self dl verbose w)
  /\ (forall b states_l labels_l w,
        bidirectional self = true ->
        res.embedding_callable (layer self) = true ->
        batch_defined self b = true ->
        let lengths := snd (res.forward (layer self) (TextBatch b)) in
        let fwd := fst (res.forward (layer self) (TextBatch b)) in
        let bwd := fst (res.reverse_forward (layer self) (TextBatch b)) in
        trace (snd (_fit_direct_body self (states_l, labels_l) b w))
        = trace w
          ++ [Forward (TextBatch b); ReverseForward (TextBatch b)]
          ++ match ms.merging_strategy (merging_strategy self) with
             | None =>
                 [Merge (Some (zip_with (zip_with app) fwd (unreverse lengths bwd)))
                        lengths (TextBatch b) Omitted]
             | Some _ =>
                 [Merge (Some fwd) lengths (TextBatch b) (Passed (batch_fts b));
                  Merge (Some bwd) lengths (TextBatch b) Omitted]
             end).
Proof.
  apply (reverse_lengths_discarded both_ways_unpooled silent_reverse).
  intros t. reflexivity.
Defined.

(** [predict] on a labelled batch: both sequences are predicted as class
    0, one of the two labels is 0, the accuracy is 50. *)
Example predict_labelled :
  fst (predict one_way_unpooled [Toy.labelled] true Toy.w0) = inr ([0; 0], Some (float 50)).
Proof. vm_compute. reflexivity. Qed.

(** * More of the code *)

(** ** What a computation touches *)

Section Footprint.

Context {W : Type}.
Implicit Types w : world W.

(** [m] only adds tensors to the store and only adds events that satisfy
    [P] to the trace, whether it returns or raises. *)
Definition footprint (P : event -> Prop) {A : Type} (m : M W A) : Prop :=
  forall w,
    (exists h, heap (snd (m w)) = heap w ++ h)
    /\ (exists t, trace (snd (m w)) = trace w ++ t /\ Forall P t).

(** [m] leaves the weights as they are, whether it returns or raises. *)
Definition frozen {A : Type} (m : M W A) : Prop :=
  forall w, weights (snd (m w)) = weights w.

Lemma footprint_here (P : event -> Prop) {A : Type} (m : M W A) :
  (forall w, snd (m w) = w) -> footprint P m.
Proof.
  intros H w. rewrite H. split; [exists [] | exists []]; rewrite app_nil_r; auto.
Qed.

Lemma footprint_ret (P : event -> Prop) {A : Type} (x : A) : footprint P (mret x : M W A).
Proof. apply footprint_here. reflexivity. Qed.

Lemma footprint_lift (P : event -> Prop) {A : Type} (r : result A) : footprint P (lift r : M W A).
Proof. apply footprint_here. reflexivity. Qed.

Lemma footprint_raise (P : event -> Prop) {A : Type} (e : exn) : footprint P (raise e : M W A).
Proof. apply footprint_here. reflexivity. Qed.

Lemma footprint_get_weights (P : event -> Prop) : footprint P (get_weights : M W W).
Proof. apply footprint_here. reflexivity. Qed.

Lemma footprint_set_weights (P : event -> Prop) (x : W) : footprint P (set_weights x).
Proof.
  intros w. simpl. split; [exists [] | exists []]; rewrite app_nil_r; auto.
Qed.

Lemma footprint_load (P : event -> Prop) (r : nat) : footprint P (load r : M W _).
Proof. apply footprint_here. reflexivity. Qed.

Lemma footprint_alloc (P : event -> Prop) (t : list (list (list spec_float))) :
  footprint P (alloc t : M W _).
Proof.
  intros w. simpl. split; [exists [t]; reflexivity | exists []; rewrite app_nil_r; auto].
Qed.

Lemma footprint_emit (P : event -> Prop) (e : event) : P e -> footprint P (emit e : M W _).
Proof.
  intros He w. simpl. split; [exists []; rewrite app_nil_r; reflexivity |].
  exists [e]. split; [reflexivity | constructor; [exact He | constructor]].
Qed.

Lemma footprint_bind (P : event -> Prop) {A B : Type} (m : M W A) (k : A -> M W B) :
  footprint P m -> (forall x, footprint P (k x)) -> footprint P (m ≫= k).
Proof.
  intros Hm Hk w. rewrite run_bind. specialize (Hm w).
  destruct (m w) as [[e | x] w1]; simpl in Hm; [exact Hm |].
  destruct Hm as [[h1 Hh1] [t1 [Ht1 HP1]]].
  destruct (Hk x w1) as [[h2 Hh2] [t2 [Ht2 HP2]]].
  split.
  - exists (h1 ++ h2). rewrite Hh2, Hh1, app_assoc. reflexivity.
  - exists (t1 ++ t2). rewrite Ht2, Ht1, app_assoc. split; [reflexivity |].
    apply Forall_app. auto.
Qed.

Lemma footprint_fmap (P : event -> Prop) {A B : Type} (f : A -> B) (m : M W A) :
  footprint P m -> footprint P (f <$> m).
Proof.
  intros Hm w. specialize (Hm w). unfold fmap, M_fmap.
  destruct (m w) as [[e | x] w1]; exact Hm.
Qed.

Lemma footprint_for_acc (P : event -> Prop) {A S : Type} (l : list A) (body : S -> A -> M W S) :
  (forall acc x, footprint P (body acc x)) -> forall acc, footprint P (for_acc l body acc).
Proof.
  intros Hbody. induction l as [|x l IH]; intros acc.
  - apply footprint_ret.
  - rewrite for_acc_cons. apply footprint_bind; [apply Hbody | exact IH].
Qed.

Lemma footprint_weaken (P Q : event -> Prop) {A : Type} (m : M W A) :
  (forall e, P e -> Q e) -> footprint P m -> footprint Q m.
Proof.
  intros HPQ Hm w. destruct (Hm w) as [Hh [t [Ht HP]]].
  split; [exact Hh |]. exists t. split; [exact Ht |].
  eapply Forall_impl; [exact HP | exact HPQ].
Qed.

Lemma frozen_here {A : Type} (m : M W A) : (forall w, snd (m w) = w) -> frozen m.
Proof. intros H w. rewrite H. reflexivity. Qed.

Lemma frozen_bind {A B : Type} (m : M W A) (k : A -> M W B) :
  frozen m -> (forall x, frozen (k x)) -> frozen (m ≫= k).
Proof.
  intros Hm Hk w. rewrite run_bind. specialize (Hm w).
  destruct (m w) as [[e | x] w1]; simpl in Hm; [exact Hm |].
  rewrite (Hk x w1). exact Hm.
Qed.

Lemma frozen_fmap {A B : Type} (f : A -> B) (m : M W A) : frozen m -> frozen (f <$> m).
Proof.
  intros Hm w. specialize (Hm w). unfold fmap, M_fmap.
  destruct (m w) as [[e | x] w1]; exact Hm.
Qed.

Lemma frozen_for_acc {A S : Type} (l : list A) (body : S -> A -> M W S) :
  (forall acc x, frozen (body acc x)) -> forall acc, frozen (for_acc l body acc).
Proof.
  intros Hbody. induction l as [|x l IH]; intros acc.
  - apply frozen_here. reflexivity.
  - rewrite for_acc_cons. apply frozen_bind; [apply Hbody | exact IH].
Qed.

End Footprint.

Ltac footprint_step :=
  lazymatch goal with
  | |- footprint _ (mbind _ _) => apply footprint_bind; [| intros ?]
  | |- footprint _ (fmap _ _) => apply footprint_fmap
  | |- footprint _ (mret _) => apply footprint_ret
  | |- footprint _ (lift _) => apply footprint_lift
  | |- footprint _ (raise _) => apply footprint_raise
  | |- footprint _ (load _) => apply footprint_load
  | |- footprint _ (alloc _) => apply footprint_alloc
  | |- footprint _ get_weights => apply footprint_get_weights
  | |- footprint _ (set_weights _) => apply footprint_set_weights
  | |- footprint _ (emit _) => apply footprint_emit; simpl; auto
  | |- footprint _ (print _) => apply footprint_emit; simpl; auto
  | |- footprint _ (if ?b then _ else _) => destruct b
  | |- footprint _ (match ?x with _ => _ end) => destruct x
  end.

Ltac frozen_step :=
  lazymatch goal with
  | |- frozen (mbind _ _) => apply frozen_bind; [| intros ?]
  | |- frozen (fmap _ _) => apply frozen_fmap
  | |- frozen (if ?b then _ else _) => destruct b
  | |- frozen (match ?x with _ => _ end) => destruct x
  | |- frozen _ => apply frozen_here; reflexivity
  end.

(** ** What the methods touch *)

Section Frames.

Context {W : Type}.
Variable self : EchoStateNetwork W.
Implicit Types w : world W.

Definition is_merge (e : event) : Prop :=
  match e with Merge _ _ _ _ => True | _ => False end.

(** The events of inference: no closed-form fit, and a reverse pass only
    when the network is bidirectional. *)
Definition inference_event (e : event) : Prop :=
  match e with
  | Fit _ _ => False
  | ReverseForward _ => bidirectional self = true
  | _ => True
  end.

Lemma is_merge_inference (e : event) : is_merge e -> inference_event e.
Proof. destruct e; simpl; auto; intros []. Qed.

Lemma merging_strategy_call_footprint states lengths texts fts :
  footprint is_merge (merging_strategy_call self states lengths texts fts).
Proof. unfold merging_strategy_call. repeat footprint_step. Qed.

Lemma merging_strategy_call_frozen states lengths texts fts :
  frozen (merging_strategy_call self states lengths texts fts).
Proof. intros w. unfold merging_strategy_call. destruct states; reflexivity. Qed.

Lemma for_each_cons {A : Type} (x : A) (l : list A) (body : A -> M W unit) :
  for_each (x :: l) body = body x ≫= (fun _ => for_each l body).
Proof. reflexivity. Qed.

Lemma flip_in_place_run (r i n : nat) w :
  flip_in_place r (i, n) w
  = match default [] (heap w !! r) !! i with
    | Some x =>
        (inr tt, with_heap (<[r := <[i := torch.flip_prefix n x]> (default [] (heap w !! r))]>
                              (heap w)) w)
    | None => (inl IndexError, w)
    end.
Proof.
  unfold flip_in_place. rewrite run_bind. unfold load. cbv beta iota.
  destruct (default [] (heap w !! r) !! i); reflexivity.
Qed.

(** The loop of line 156 writes the clone and nothing else, also when it
    stops on an index out of range. *)
Lemma flip_loop_frame (l : list (nat * nat)) (h : list (list (list (list spec_float)))) :
  forall (t : list (list (list spec_float))) w,
    heap w = h ++ [t] ->
    exists t', snd (for_each l (flip_in_place (length h)) w) = with_heap (h ++ [t']) w.
Proof.
  induction l as [|[i n] l IH]; intros t w Hw.
  - exists t. simpl. unfold with_heap. rewrite <- Hw. symmetry. apply world_eta.
  - rewrite for_each_cons, run_bind, flip_in_place_run.
    rewrite Hw, list_lookup_middle by reflexivity. simpl default.
    destruct (t !! i) as [x |] eqn:Hx.
    + destruct (IH (<[i := torch.flip_prefix n x]> t)
                  (with_heap (<[length h := <[i := torch.flip_prefix n x]> t]> (h ++ [t])) w))
        as [t' Ht'].
      { simpl. replace (length h) with (length h + 0)%nat at 1 by lia.
        rewrite insert_app_r. reflexivity. }
      exists t'. rewrite Ht'. reflexivity.
    + exists t. simpl. unfold with_heap. rewrite <- Hw. symmetry. apply world_eta.
Qed.

Lemma footprint_bind_at (P : event -> Prop) {A B : Type} (m : M W A) (k : A -> M W B) w :
  (exists h, heap (snd (m w)) = heap w ++ h) ->
  (exists t, trace (snd (m w)) = trace w ++ t /\ Forall P t) ->
  (forall x, footprint P (k x)) ->
  (exists h, heap (snd ((m ≫= k) w)) = heap w ++ h)
  /\ (exists t, trace (snd ((m ≫= k) w)) = trace w ++ t /\ Forall P t).
Proof.
  intros Hh Ht Hk. rewrite run_bind.
  destruct (m w) as [[e | x] w1]; simpl in Hh, Ht; [split; assumption |].
  destruct Hh as [h1 Hh1]. destruct Ht as [t1 [Ht1 HP1]].
  destruct (Hk x w1) as [[h2 Hh2] [t2 [Ht2 HP2]]].
  split.
  - exists (h1 ++ h2). rewrite Hh2, Hh1, app_assoc. reflexivity.
  - exists (t1 ++ t2). rewrite Ht2, Ht1, app_assoc. split; [reflexivity |].
    apply Forall_app. auto.
Qed.

(** X1.  Whatever its arguments and whether it returns or raises,
    [_apply_pooling_strategy] leaves every tensor that was in the store
    as it is (the reversed states included), leaves the weights as they
    are, and makes no call other than calls to the reduction. *)
Theorem apply_pooling_strategy_frame (states : nat) (lengths : list nat) (texts : text)
    (reversed_states : option nat) (additional_fts : value) :
  footprint is_merge
    (_apply_pooling_strategy self states lengths texts reversed_states additional_fts)
  /\ frozen
       (_apply_pooling_strategy self states lengths texts reversed_states additional_fts).
Proof.
  unfold _apply_pooling_strategy.
  destruct (bidirectional self);
    [destruct (ms.merging_strategy (merging_strategy self)) as [tag |] |].
  - split.
    + apply footprint_bind; [apply merging_strategy_call_footprint | intros normal].
      apply footprint_bind; [apply merging_strategy_call_footprint | intros reversed].
      apply footprint_lift.
    + apply frozen_bind; [apply merging_strategy_call_frozen | intros normal].
      apply frozen_bind; [apply merging_strategy_call_frozen | intros reversed].
      apply frozen_here. reflexivity.
  - assert (Hrest : forall restored : nat,
              footprint is_merge
                (s ← load states;
                 r ← load restored;
                 c ← lift (torch.cat_dim2 s r);
                 concatenated_states ← alloc c;
                 merging_strategy_call self (Some concatenated_states) lengths texts Omitted)
              /\ frozen
                (s ← load states;
                 r ← load restored;
                 c ← lift (torch.cat_dim2 s r);
                 concatenated_states ← alloc c;
                 merging_strategy_call self (Some concatenated_states) lengths texts Omitted)).
    { intros restored. split.
      - do 4 footprint_step; try footprint_step. apply merging_strategy_call_footprint.
      - do 3 (apply frozen_bind; [apply frozen_here; reflexivity | intros ?]).
        apply frozen_bind; [intros w; reflexivity | intros ?].
        apply merging_strategy_call_frozen. }
    destruct reversed_states as [r |].
    2:{ split; [apply footprint_here | apply frozen_here]; reflexivity. }
    lazymatch goal with
    | |- footprint _ ?m /\ frozen ?m =>
        assert (Hw : forall w,
                  ((exists h, heap (snd (m w)) = heap w ++ h)
                   /\ (exists t, trace (snd (m w)) = trace w ++ t /\ Forall is_merge t))
                  /\ weights (snd (m w)) = weights w);
        [| split; intros w; apply (Hw w)]
    end.
    intros w. rewrite run_bind.
    change (clone (Some r) w)
      with (inr (length (heap w)) : result nat,
            with_heap (heap w ++ [default [] (heap w !! r)]) w).
    cbv beta iota. rewrite run_bind.
    destruct (flip_loop_frame (enumerate lengths) (heap w) (default [] (heap w !! r))
                (with_heap (heap w ++ [default [] (heap w !! r)]) w) eq_refl) as [t' Ht'].
    destruct (for_each (enumerate lengths) (flip_in_place (length (heap w)))
                (with_heap (heap w ++ [default [] (heap w !! r)]) w)) as [[e | []] w2];
      simpl in Ht'; subst w2.
    + simpl. split; [split |]; [exists [t']; reflexivity | | reflexivity].
      exists []. rewrite app_nil_r. auto.
    + destruct (Hrest (length (heap w))) as [Hfoot Hfrozen].
      specialize (Hfoot (with_heap (heap w ++ [t']) w)).
      specialize (Hfrozen (with_heap (heap w ++ [t']) w)).
      destruct Hfoot as [[h Hh] Ht]. split; [split |].
      * exists ([t'] ++ h). etransitivity; [exact Hh |].
        simpl. rewrite <- app_assoc. reflexivity.
      * exact Ht.
      * exact Hfrozen.
  - split; [apply merging_strategy_call_footprint | apply merging_strategy_call_frozen].
Qed.

End Frames.

Ltac frozen_atom := intros ?; reflexivity.

Section Inference.

Context {W : Type}.
Variable self : EchoStateNetwork W.
Implicit Types w : world W.

Lemma read_batch_footprint (P : event -> Prop) (b : batch) : footprint P (read_batch self b).
Proof. unfold read_batch. repeat footprint_step. Qed.

Lemma read_batch_frozen (b : batch) : frozen (read_batch self b).
Proof. unfold read_batch. repeat frozen_step. Qed.

Lemma encode_footprint (t : text) : footprint (inference_event self) (encode self t).
Proof.
  unfold encode, layer_forward, layer_reverse_forward.
  destruct (bidirectional self) eqn:Hbi; repeat footprint_step.
Qed.

Lemma encode_frozen (t : text) : frozen (encode self t).
Proof.
  unfold encode, layer_forward, layer_reverse_forward.
  repeat first [frozen_atom | frozen_step].
Qed.

Lemma apply_pooling_strategy_inference states lengths texts reversed_states additional_fts :
  footprint (inference_event self)
    (_apply_pooling_strategy self states lengths texts reversed_states additional_fts).
Proof.
  eapply footprint_weaken; [apply is_merge_inference |].
  apply apply_pooling_strategy_frame.
Qed.

Lemma compute_predictions_footprint (P : event -> Prop) states lengths :
  footprint P (_compute_predictions self states lengths).
Proof. unfold _compute_predictions, learning_algo_call. repeat footprint_step. Qed.

Lemma compute_predictions_frozen states lengths :
  frozen (_compute_predictions self states lengths).
Proof. unfold _compute_predictions, learning_algo_call. repeat frozen_step. Qed.

Lemma predict_body_footprint st (b : batch) :
  footprint (inference_event self) (predict_body self st b).
Proof.
  unfold predict_body.
  repeat first [apply read_batch_footprint | apply encode_footprint
               | apply apply_pooling_strategy_inference | apply compute_predictions_footprint
               | footprint_step].
Qed.

Lemma predict_body_frozen st (b : batch) : frozen (predict_body self st b).
Proof.
  unfold predict_body.
  repeat first [apply read_batch_frozen | apply encode_frozen
               | apply apply_pooling_strategy_frame | apply compute_predictions_frozen
               | frozen_step].
Qed.

(** X2.  [predict] is read-only, whatever the loader holds and whether
    it returns or raises: the weights are left as they are, no tensor
    that was in the store is written, the [fit] of the readout is never
    called, and the reverse pass of the layer is only called when the
    network is bidirectional. *)
Theorem predict_read_only (dataloader : list batch) (verbose : bool) :
  frozen (predict self dataloader verbose)
  /\ footprint (inference_event self) (predict self dataloader verbose).
Proof.
  unfold predict. split.
  - apply frozen_bind; [apply frozen_for_acc; intros; apply predict_body_frozen | intros st].
    repeat first [frozen_atom | frozen_step].
  - apply footprint_bind;
      [apply footprint_for_acc; intros; apply predict_body_footprint | intros st].
    repeat footprint_step.
Qed.

End Inference.

Section TrainingFrames.

Context {W : Type}.
Variable self : EchoStateNetwork W.
Implicit Types w : world W.

Lemma fit_GD_body_footprint (iter_steps : Z) acc (b : batch) :
  footprint (inference_event self) (_fit_GD_body self iter_steps acc b).
Proof.
  unfold _fit_GD_body, learning_algo_call.
  repeat first [apply read_batch_footprint | apply encode_footprint
               | apply apply_pooling_strategy_inference | footprint_step].
Qed.

(** X3.  Whatever the loader holds and whether it returns or raises,
    gradient descent never calls the closed-form [fit] of the readout,
    calls the reverse pass of the layer only when the network is
    bidirectional, and overwrites none of the state tensors that were
    in the store: the states it computes are new tensors.  (The
    parameters of the readout are not in that store; the optimizer
    updates them.) *)
Theorem fit_GD_footprint (train_dataloader : nat -> list batch) (epochs iter_steps : Z) :
  footprint (inference_event self) (_fit_GD self train_dataloader epochs iter_steps).
Proof.
  unfold _fit_GD. apply footprint_bind; [apply footprint_emit; exact I | intros _].
  apply footprint_bind; [| intros [loss_l n_iter]; repeat footprint_step].
  apply footprint_for_acc. intros acc epoch.
  apply footprint_for_acc. intros acc' b. apply fit_GD_body_footprint.
Qed.

End TrainingFrames.

(** ** Loaders without batches, trainings without epochs *)

Section Degenerate.

Context {W : Type}.
Variable self : EchoStateNetwork W.
Implicit Types w : world W.

Definition printed (ms : list message) w : world W :=
  {| heap := heap w; weights := weights w; trace := trace w ++ map Print ms |}.

Lemma for_acc_no_batches {S : Type} (dl : nat -> list batch) (body : S -> batch -> M W S)
    (epochs : list nat) (acc : S) w :
  (forall epoch, In epoch epochs -> dl epoch = []) ->
  for_acc epochs (fun acc epoch => for_acc (dl epoch) body acc) acc w = (inr acc, w).
Proof.
  induction epochs as [|e epochs IH]; intros Hdl; [reflexivity |].
  rewrite for_acc_cons, run_bind, (Hdl e) by (left; reflexivity).
  simpl for_acc at 1. apply IH. intros epoch He. apply Hdl. right. exact He.
Qed.

(** X5.  A loader that yields no batch: the closed-form trainer and
    [predict] raise [RuntimeError], because [torch.cat] gets an empty
    list, and the readout is not fitted; gradient descent returns the
    empty list of losses for any number of epochs and any [iter_steps],
    zero included, and leaves the weights as they are. *)
Theorem empty_loader (epochs iter_steps : Z) (verbose : bool) w :
  _fit_direct self [] w
  = (inl RuntimeError, printed [Text "Computing closed-form solution..."] w)
  /\ predict self [] verbose w = (inl RuntimeError, w)
  /\ _fit_GD self (fun _ => []) epochs iter_steps w
     = (inr (Some []),
        printed [Text "Performing gradient descent..."; Text "Training complete."] w).
Proof.
  split; [reflexivity | split; [reflexivity |]].
  unfold _fit_GD. rewrite run_bind. unfold print at 1, emit at 1. cbv beta iota.
  rewrite run_bind, for_acc_no_batches by reflexivity.
  unfold printed. cbv [mbind M_bind print emit mret M_ret heap weights trace map].
  rewrite <- app_assoc. reflexivity.
Qed.

(** X6.  With [epochs <= 0] gradient descent does not read the loader:
    it returns the empty list of losses, calls nothing but [print], and
    leaves the weights as they are, whatever the batches and
    [iter_steps] are. *)
Theorem fit_GD_without_epochs (train_dataloader : nat -> list batch) (epochs iter_steps : Z) w :
  epochs <= 0 ->
  _fit_GD self train_dataloader epochs iter_steps w
  = (inr (Some []),
     printed [Text "Performing gradient descent..."; Text "Training complete."] w).
Proof.
  intros Hepochs. unfold _fit_GD. replace (Z.to_nat epochs) with 0%nat by lia.
  unfold printed. cbv [mbind M_bind print emit mret M_ret heap weights trace map seq for_acc].
  rewrite <- app_assoc. reflexivity.
Qed.

End Degenerate.

(** ** Gradient descent: the first iteration that raises *)

Section FirstIteration.

Context {W : Type}.
Variable self : EchoStateNetwork W.
Implicit Types w : world W.

Lemma fit_GD_first_raises (train_dataloader : nat -> list batch) (epochs iter_steps : Z)
    (b : batch) (rest : list batch) (e : exn) w w' :
  0 < epochs ->
  train_dataloader 0%nat = b :: rest ->
  _fit_GD_body self iter_steps ([], 0) b (printed [Text "Performing gradient descent..."] w)
  = (inl e, w') ->
  _fit_GD self train_dataloader epochs iter_steps w = (inl e, w').
Proof.
  intros Hepochs Hdl Hbody. unfold _fit_GD.
  rewrite run_bind. unfold print at 1, emit at 1. cbv beta iota.
  apply run_bind_err.
  destruct (Z.to_nat epochs) as [|n] eqn:Hn; [lia |].
  simpl seq. rewrite for_acc_cons. apply run_bind_err.
  rewrite Hdl, for_acc_cons. apply run_bind_err. exact Hbody.
Qed.

Hypothesis Hcallable : res.embedding_callable (layer self) = true.

(** The body of the loop up to the call of the readout. *)
Lemma fit_GD_body_prefix (iter_steps : Z) (loss_l : list spec_float) (n_iter : Z) (b : batch) w
    (k : list (list spec_float) -> M W (list spec_float * Z)) :
  batch_defined self b = true ->
  (forall final_states w1,
     (let labels := row_labels self b in
      outputs ← learning_algo_call self final_states;
      labels ← match loss_cls <$> criterion self with
               | Some MultiLabelSoftMarginLoss | Some BCEWithLogitsLoss =>
                   OneHot <$> lift (torch.one_hot labels)
               | _ => mret (ClassIdx labels)
               end;
      loss ← match criterion self with
             | None => raise TypeError
             | Some c => mret (loss_call c outputs labels)
             end;
      _ ← match optimizer self with
          | None => raise (AttributeError "zero_grad")
          | Some o => w ← get_weights; set_weights (update o w final_states labels)
          end;
      let n_iter := n_iter + 1 in
      if Z.eqb iter_steps 0 then raise ZeroDivisionError
      else if Z.eqb (n_iter mod iter_steps) 0 then
        _ ← print (IterationLoss n_iter loss);
        mret (loss_l ++ [loss], n_iter)
      else mret (loss_l, n_iter)) w1 = k final_states w1) ->
  _fit_GD_body self iter_steps (loss_l, n_iter) b w
  = k (final_states self b) (after_batch self b w).
Proof.
  intros Hdef Hk. unfold _fit_GD_body.
  rewrite (run_bind_ok _ _ _ _ _ (read_batch_run self b w Hcallable Hdef)).
  rewrite (run_bind_ok _ _ _ _ _ (encode_run self b w)).
  do 2 (erewrite run_bind_ok by reflexivity).
  rewrite (run_bind_ok _ _ _ _ _ (pooling_after_encode self b w Hdef)).
  rewrite <- Hk. reflexivity.
Qed.

End FirstIteration.

Section IterativeEdges.

Context {W : Type}.
Variable self : EchoStateNetwork W.
Implicit Types w : world W.

Hypothesis Hcallable : res.embedding_callable (layer self) = true.

Variables (train_dataloader : nat -> list batch) (epochs : Z) (b : batch) (rest : list batch).
Hypothesis Hepochs : 0 < epochs.
Hypothesis Hfirst : train_dataloader 0%nat = b :: rest.
Hypothesis Hdefined : batch_defined self b = true.

(** The world when the first batch has been encoded and pooled. *)
Definition first_pooled w : world W :=
  after_batch self b (printed [Text "Performing gradient descent..."] w).

(** X7.  [iter_steps = 0] makes the first iteration raise
    [ZeroDivisionError] at [n_iter % iter_steps], after the optimizer has
    made its step: the weights are those of one update on the first
    batch. *)
Theorem fit_GD_zero_iter_steps (a : la.LearningAlgo W) (c : Criterion) (o : Optimizer W) w :
  learning_algo self = Some a ->
  criterion self = Some c ->
  optimizer self = Some o ->
  iteration_defined self c b = true ->
  _fit_GD self train_dataloader epochs 0 w
  = (inl ZeroDivisionError,
     {| heap := heap (first_pooled w);
        weights := iteration_update self c o b (weights w);
        trace := trace (first_pooled w) |}).
Proof.
  intros Hla Hcrit Hopt Hiter. apply andb_true_iff in Hiter as [_ Htarget].
  apply (fit_GD_first_raises self train_dataloader epochs 0 b rest _ w _ Hepochs Hfirst).
  erewrite (fit_GD_body_prefix self Hcallable); [| exact Hdefined | intros; reflexivity].
  cbv beta zeta.
  rewrite (run_bind_ok _ _ _ _ _ (learning_algo_call_run self a Hla _ _)).
  rewrite Hcrit, Hopt. simpl fmap at 1.
  unfold iteration_update, target_or_empty, batch_target in *.
  destruct (loss_cls c);
    [destruct (torch.one_hot (row_labels self b)) as [e | m]; [discriminate |]
    |destruct (torch.one_hot (row_labels self b)) as [e | m]; [discriminate |] |];
    reflexivity.
Qed.

(** X8.  A network without readout, criterion or optimizer (the defaults
    of the constructor) raises in the first iteration, and the weights
    are not touched: [TypeError] when the readout or the criterion is
    [None], [AttributeError] when the optimizer is. *)
Theorem fit_GD_missing_parts (iter_steps : Z) w :
  (learning_algo self = None ->
   _fit_GD self train_dataloader epochs iter_steps w = (inl TypeError, first_pooled w))
  /\ (forall a, learning_algo self = Some a -> criterion self = None ->
      _fit_GD self train_dataloader epochs iter_steps w = (inl TypeError, first_pooled w))
  /\ (forall a c, learning_algo self = Some a -> criterion self = Some c ->
      iteration_defined self c b = true -> optimizer self = None ->
      _fit_GD self train_dataloader epochs iter_steps w
      = (inl (AttributeError "zero_grad"), first_pooled w))
  /\ weights (first_pooled w) = weights w.
Proof.
  split; [| split; [| split; [| reflexivity]]].
  - intros Hla.
    apply (fit_GD_first_raises self train_dataloader epochs iter_steps b rest _ w _
             Hepochs Hfirst).
    erewrite (fit_GD_body_prefix self Hcallable); [| exact Hdefined | intros; reflexivity].
    cbv beta zeta. unfold learning_algo_call. rewrite Hla. reflexivity.
  - intros a Hla Hcrit.
    apply (fit_GD_first_raises self train_dataloader epochs iter_steps b rest _ w _
             Hepochs Hfirst).
    erewrite (fit_GD_body_prefix self Hcallable); [| exact Hdefined | intros; reflexivity].
    cbv beta zeta.
    rewrite (run_bind_ok _ _ _ _ _ (learning_algo_call_run self a Hla _ _)).
    rewrite Hcrit. reflexivity.
  - intros a c Hla Hcrit Hiter Hopt. apply andb_true_iff in Hiter as [_ Htarget].
    apply (fit_GD_first_raises self train_dataloader epochs iter_steps b rest _ w _
             Hepochs Hfirst).
    erewrite (fit_GD_body_prefix self Hcallable); [| exact Hdefined | intros; reflexivity].
    cbv beta zeta.
    rewrite (run_bind_ok _ _ _ _ _ (learning_algo_call_run self a Hla _ _)).
    rewrite Hcrit, Hopt. simpl fmap at 1.
    unfold batch_target in Htarget.
    destruct (loss_cls c);
      [destruct (torch.one_hot (row_labels self b)) as [e | m]; [discriminate |]
      |destruct (torch.one_hot (row_labels self b)) as [e | m]; [discriminate |] |];
      reflexivity.
Qed.

End IterativeEdges.

(** ** Gradient descent: the sampling interval *)

Lemma mod_opp_zero (n s : Z) : Z.eqb (n mod (- s)) 0 = Z.eqb (n mod s) 0.
Proof.
  destruct (Z.eq_dec s 0) as [-> | Hs]; [reflexivity |].
  destruct (Z.eq_dec (n mod s) 0) as [Hz | Hnz].
  - rewrite (Z.mod_opp_r_z n s Hs Hz), Hz. reflexivity.
  - rewrite (Z.mod_opp_r_nz n s Hs Hnz).
    pose proof (Z.mod_bound_or n s Hs) as Hbound.
    rewrite (proj2 (Z.eqb_neq _ _)) by lia.
    symmetry. apply Z.eqb_neq. exact Hnz.
Qed.

Section Interval.

Context {W : Type}.
Variable self : EchoStateNetwork W.
Implicit Types w : world W.

Lemma fit_GD_body_opp (iter_steps : Z) acc (b : batch) w :
  _fit_GD_body self (- iter_steps) acc b w = _fit_GD_body self iter_steps acc b w.
Proof.
  unfold _fit_GD_body. destruct acc as [loss_l n_iter].
  apply run_bind_ext; [reflexivity | intros [[batch_text batch_label] additional_fts] w1].
  apply run_bind_ext; [reflexivity | intros [[states lengths] reversed_states] w2].
  do 6 (apply run_bind_ext; [reflexivity | intros ? ?]).
  apply run_bind_ext; [reflexivity | intros ? w9].
  rewrite mod_opp_zero.
  replace (Z.eqb (- iter_steps) 0) with (Z.eqb iter_steps 0); [reflexivity |].
  destruct (Z.eqb_spec iter_steps 0) as [-> | Hne]; [reflexivity |].
  symmetry. apply Z.eqb_neq. lia.
Qed.

(** X9.  A negative [iter_steps] samples like its absolute value:
    Python's [n_iter % iter_steps] is zero for the same iterations. *)
Theorem fit_GD_negative_iter_steps (train_dataloader : nat -> list batch)
    (epochs iter_steps : Z) w :
  _fit_GD self train_dataloader epochs (- iter_steps) w
  = _fit_GD self train_dataloader epochs iter_steps w.
Proof.
  unfold _fit_GD. apply run_bind_ext; [reflexivity | intros _ w1].
  apply run_bind_ext; [| reflexivity].
  apply for_acc_ext. intros acc epoch w2.
  apply for_acc_ext. intros; apply fit_GD_body_opp.
Qed.

(** X10.  Gradient descent makes one step of the optimizer for every
    batch of every epoch, in the order of the loader, each on the merged
    states and the target of its batch; [iter_steps] changes what is
    recorded, not what is learnt. *)
Theorem fit_GD_one_step_per_batch
    (a : la.LearningAlgo W) (c : Criterion) (o : Optimizer W)
    (train_dataloader : nat -> list batch) (epochs iter_steps : Z) w :
  res.embedding_callable (layer self) = true ->
  learning_algo self = Some a ->
  criterion self = Some c ->
  optimizer self = Some o ->
  iter_steps <> 0 ->
  forallb (iteration_defined self c) (iterations train_dataloader epochs) = true ->
  weights (snd (_fit_GD self train_dataloader epochs iter_steps w))
  = fold_left (fun wt b => update o wt (final_states self b) (target_or_empty self c b))
      (concat (map train_dataloader (seq 0 (Z.to_nat epochs)))) (weights w).
Proof.
  intros Hcall Hla Hcrit Hopt Hsteps Hdef. apply forallb_Forall in Hdef.
  destruct (fit_GD_run self a c o Hcall Hla Hcrit Hopt train_dataloader epochs iter_steps w
              Hsteps Hdef) as (w' & Hrun & Hw').
  rewrite Hrun. exact Hw'.
Qed.

End Interval.

(** ** Prediction over a loader *)

Definition sumZ (l : list Z) : Z := fold_right Z.add 0 l.

Lemma sumZ_app (l1 l2 : list Z) : sumZ (l1 ++ l2) = sumZ l1 + sumZ l2.
Proof. induction l1 as [|x l1 IH]; simpl; [reflexivity | rewrite IH; lia]. Qed.

(** The number of positions at which two 1-D tensors of one size agree. *)
Definition agreements (predictions labels : list Z) : Z :=
  Z.of_nat (length (filter (fun p => Z.eqb (fst p) (snd p)) (zip predictions labels))).

Lemma eq_sum_same_length (predictions labels : list Z) :
  length predictions = length labels ->
  torch.eq_sum predictions labels = inr (agreements predictions labels).
Proof.
  intros Hlen. unfold torch.eq_sum, agreements, torch.same_length.
  rewrite (proj2 (Nat.eqb_eq _ _) Hlen).
  destruct predictions as [|p [|p' predictions]]; destruct labels as [|l [|l' labels]];
    try discriminate; reflexivity.
Qed.

Lemma eq_sum_mismatch (predictions labels : list Z) :
  length predictions <> length labels ->
  length predictions <> 1%nat ->
  length labels <> 1%nat ->
  torch.eq_sum predictions labels = inl RuntimeError.
Proof.
  intros Hlen Hp Hl. unfold torch.eq_sum, torch.same_length.
  rewrite (proj2 (Nat.eqb_neq _ _) Hlen).
  destruct predictions as [|p [|p' predictions]]; destruct labels as [|l [|l' labels]];
    try reflexivity; simpl in *; congruence.
Qed.

(** The number of entries of a 1-D tensor that are equal to [x]. *)
Definition occurrences (x : Z) (l : list Z) : Z :=
  Z.of_nat (length (filter (fun y => Z.eqb y x) l)).

Lemma eq_sum_one_prediction (p : Z) (labels : list Z) :
  torch.eq_sum [p] labels = inr (occurrences p labels).
Proof.
  unfold torch.eq_sum, occurrences. do 2 f_equal.
  induction labels as [|l labels IH]; [reflexivity |].
  simpl. rewrite !filter_cons. cbn [fst snd]. rewrite (Z.eqb_sym p l).
  destruct (decide (l =? p)); simpl; rewrite IH; reflexivity.
Qed.

Lemma eq_sum_one_label (predictions : list Z) (l : Z) :
  torch.eq_sum predictions [l] = inr (occurrences l predictions).
Proof.
  destruct predictions as [|p [|p' predictions]].
  - reflexivity.
  - rewrite eq_sum_one_prediction. unfold occurrences. rewrite !filter_cons, !filter_nil.
    rewrite (Z.eqb_sym p l). destruct (decide (l =? p)); reflexivity.
  - unfold torch.eq_sum, occurrences. do 2 f_equal.
    generalize (p :: p' :: predictions). intros ps.
    induction ps as [|q ps IH]; [reflexivity |].
    simpl. rewrite !filter_cons. cbn [fst snd].
    destruct (decide (q =? l)); simpl; rewrite IH; reflexivity.
Qed.

Section PredictLoader.

Context {W : Type}.
Variable self : EchoStateNetwork W.
Implicit Types w : world W.

Hypothesis Hcallable : res.embedding_callable (layer self) = true.

(** The predictions of [_compute_predictions] for a batch under the
    weights [wt]; the method reads nothing else of the world. *)
Definition batch_predictions (wt : W) (b : batch) : result (list Z) :=
  fst (_compute_predictions self (final_states self b) (fwd_lengths self b)
         {| heap := []; weights := wt; trace := [] |}).

Lemma compute_predictions_run (states : list (list spec_float)) (lengths : list nat) w :
  _compute_predictions self states lengths w
  = (fst (_compute_predictions self states lengths
            {| heap := []; weights := weights w; trace := [] |}), w).
Proof.
  unfold _compute_predictions, learning_algo_call.
  destruct (learning_algo self) as [a |]; [| reflexivity].
  rewrite !run_bind. unfold get_weights. cbn [weights]. rewrite !run_ret. cbv beta iota.
  destruct (ms.merging_strategy (merging_strategy self));
    destruct (la.call a (weights w) states) as [v | m | ids].
  - reflexivity.
  - rewrite !run_bind, !run_lift.
    destruct (map torch.float <$> torch.argmax_dim1 m); reflexivity.
  - reflexivity.
  - destruct lengths; reflexivity.
  - rewrite !run_bind, !run_lift.
    destruct (torch.stack _) as [e | outputs]; [reflexivity |].
    rewrite !run_lift. reflexivity.
  - reflexivity.
Qed.

Definition predicted (wt : W) (b : batch) : list Z :=
  match batch_predictions wt b with inr p => p | inl _ => [] end.

(** What the comparison of line 451 gives for a batch, if it does not
    raise. *)
Definition compared (wt : W) (b : batch) : option Z :=
  match torch.eq_sum (predicted wt b) (batch_labels b) with
  | inr n => Some n
  | inl _ => None
  end.

(** A batch that [predict] processes up to its [try] block. *)
Definition prediction_defined (wt : W) (b : batch) : bool :=
  batch_defined self b
  && match batch_predictions wt b with inr _ => true | inl _ => false end.

Lemma predict_body_run (st : predict_locals) (b : batch) w :
  prediction_defined (weights w) b = true ->
  predict_body self st b w
  = (inr {| predictions_l := predictions_l st ++ [predicted (weights w) b];
            correct := correct st + default 0 (compared (weights w) b);
            total := total st + Z.of_nat (length (batch_labels b));
            testing_mode := testing_mode st || bool_decide (is_Some (compared (weights w) b)) |},
     after_batch self b w).
Proof.
  intros Hdef. apply andb_true_iff in Hdef as [Hdef Hpred].
  unfold predict_body.
  rewrite (run_bind_ok _ _ _ _ _ (read_batch_run self b w Hcallable Hdef)).
  rewrite (run_bind_ok _ _ _ _ _ (encode_run self b w)).
  erewrite run_bind_ok by reflexivity.
  rewrite (run_bind_ok _ _ _ _ _ (pooling_after_encode self b w Hdef)).
  rewrite run_bind, compute_predictions_run.
  change (weights (after_batch self b w)) with (weights w).
  unfold compared, predicted, batch_predictions in *.
  destruct (fst (_compute_predictions self (final_states self b) (fwd_lengths self b)
                   {| heap := []; weights := weights w; trace := [] |})) as [e | p];
    [discriminate |].
  cbv beta iota. rewrite run_ret. unfold predict_try. simpl type_int64.
  unfold mret, result_ret. cbv beta iota.
  cbn [predictions_l correct total testing_mode].
  destruct (torch.eq_sum p (batch_labels b)) as [e | n]; simpl default.
  - rewrite Z.add_0_r, orb_false_r. reflexivity.
  - rewrite orb_true_r. reflexivity.
Qed.

Lemma predict_loop_run (dl : list batch) :
  forall (st : predict_locals) w,
    forallb (prediction_defined (weights w)) dl = true ->
    for_acc dl (predict_body self) st w
    = (inr {| predictions_l := predictions_l st ++ map (predicted (weights w)) dl;
              correct := correct st + sumZ (map (fun b => default 0 (compared (weights w) b)) dl);
              total := total st + sumZ (map (fun b => Z.of_nat (length (batch_labels b))) dl);
              testing_mode :=
                testing_mode st
                || existsb (fun b => bool_decide (is_Some (compared (weights w) b))) dl |},
       after_batches self dl w).
Proof.
  induction dl as [|b dl IH]; intros st w Hdef.
  - simpl. rewrite app_nil_r, !Z.add_0_r, orb_false_r.
    unfold after_batches. simpl. rewrite !app_nil_r. destruct st, w. reflexivity.
  - simpl in Hdef. apply andb_true_iff in Hdef as [Hb Hdl].
    rewrite for_acc_cons, (run_bind_ok _ _ _ _ _ (predict_body_run st b w Hb)).
    rewrite IH by exact Hdl. rewrite after_batches_cons.
    cbn [predictions_l correct total testing_mode weights after_batch].
    simpl map. simpl sumZ. simpl existsb.
    rewrite <- app_assoc, !Z.add_assoc, orb_assoc. reflexivity.
Qed.

(** X11.  [predict] on a loader of well-formed labelled batches returns
    the predictions of the batches joined in the order of the loader.
    The comparison of a batch counts the positions at which predictions
    and labels agree when they have one size, and broadcasts the one
    that has a single element; with two other sizes it raises inside
    the [try] block, and the batch adds to the divisor only.  The
    accuracy is the Python float of [100 * agreed / float(counted)]; it
    is [None] when no batch could be compared, and the division raises
    when the batches that could had no label at all.  The weights are
    left as they are. *)
Theorem predict_over_loader (dataloader : list batch) (verbose : bool) w :
  dataloader <> [] ->
  forallb (prediction_defined (weights w)) dataloader = true ->
  let agreed := sumZ (map (fun b => default 0 (compared (weights w) b)) dataloader) in
  let counted := sumZ (map (fun b => Z.of_nat (length (batch_labels b))) dataloader) in
  let testing :=
    existsb (fun b => bool_decide (is_Some (compared (weights w) b))) dataloader in
  let accuracy : result (option spec_float) :=
    if testing then Some <$> truediv (float (100 * agreed)) (float counted) else inr None in
  predict self dataloader verbose w
  = match accuracy with
    | inr accuracy =>
        (inr (concat (map (predicted (weights w)) dataloader), accuracy),
         printed (if verbose && testing then [Accuracy accuracy] else [])
           (after_batches self dataloader w))
    | inl e => (inl e, after_batches self dataloader w)
    end
  /\ (testing = true -> counted = 0 -> accuracy = inl ZeroDivisionError)
  /\ (testing = true -> 0 < counted < 2 ^ 53 ->
        accuracy = inr (Some (SFdiv 53 1024 (float (100 * agreed)) (float counted))))
  /\ (forall b, length (predicted (weights w) b) = length (batch_labels b) ->
        compared (weights w) b = Some (agreements (predicted (weights w) b) (batch_labels b)))
  /\ (forall b p, predicted (weights w) b = [p] ->
        compared (weights w) b = Some (occurrences p (batch_labels b)))
  /\ (forall b l, batch_labels b = [l] ->
        compared (weights w) b = Some (occurrences l (predicted (weights w) b)))
  /\ (forall b, length (predicted (weights w) b) <> length (batch_labels b) ->
        length (predicted (weights w) b) <> 1%nat ->
        length (batch_labels b) <> 1%nat ->
        compared (weights w) b = None).
Proof.
  intros Hne Hdef agreed counted testing accuracy.
  split; [| split; [| split; [| split; [| split; [| split]]]]].
  - unfold predict.
    rewrite (run_bind_ok _ _ _ _ _
               (predict_loop_run dataloader
                  {| predictions_l := []; correct := 0; total := 0; testing_mode := false |}
                  w Hdef)).
    cbn [predictions_l correct total testing_mode].
    rewrite !Z.add_0_l, orb_false_l, app_nil_l.
    fold agreed. fold counted. fold testing.
    assert (Hcat : torch.cat_int (map (predicted (weights w)) dataloader)
                   = inr (concat (map (predicted (weights w)) dataloader))).
    { destruct dataloader; [congruence | reflexivity]. }
    unfold accuracy. destruct testing eqn:Htesting.
    + rewrite run_bind, run_lift.
      destruct (truediv (float (100 * agreed)) (float counted)) as [e | q];
        [reflexivity |].
      cbn [fmap result_fmap]. cbv beta iota.
      rewrite run_bind, run_lift, Hcat. cbv beta iota.
      rewrite andb_true_r. destruct verbose.
      * unfold printed. simpl map. reflexivity.
      * unfold printed. simpl map. rewrite app_nil_r.
        unfold after_batches. reflexivity.
    + rewrite run_bind, run_ret. cbv beta iota.
      rewrite run_bind, run_lift, Hcat. cbv beta iota.
      rewrite andb_false_r. unfold printed. simpl map. rewrite app_nil_r.
      unfold after_batches. reflexivity.
  - intros Htesting Hzero. unfold accuracy. rewrite Htesting, Hzero. reflexivity.
  - intros Htesting Hcounted. unfold accuracy. rewrite Htesting.
    destruct (float_small counted Hcounted) as (m & e & ->). reflexivity.
  - intros b Hlen. unfold compared. rewrite (eq_sum_same_length _ _ Hlen). reflexivity.
  - intros b p Hp. unfold compared. rewrite Hp, eq_sum_one_prediction. reflexivity.
  - intros b l Hl. unfold compared. rewrite Hl, eq_sum_one_label. reflexivity.
  - intros b Hlen Hp Hl. unfold compared. rewrite (eq_sum_mismatch _ _ Hlen Hp Hl). reflexivity.
Qed.

End PredictLoader.

(** ** The realignment of the reversed states *)

Lemma flip_prefix_twice (l : nat) (x : list (list spec_float)) :
  torch.flip_prefix l (torch.flip_prefix l x) = x.
Proof.
  unfold torch.flip_prefix, torch.flip0.
  destruct (decide (l <= length x)%nat) as [Hle | Hgt].
  - assert (Hlen : length (rev (take l x)) = l) by (rewrite length_rev, length_take; lia).
    rewrite <- Hlen at 1 4. rewrite take_app_length, drop_app_length.
    rewrite rev_involutive. apply take_drop.
  - rewrite (take_ge x l), (drop_ge x l) by lia. rewrite app_nil_r.
    rewrite take_ge, drop_ge by (rewrite length_rev; lia).
    rewrite app_nil_r. apply rev_involutive.
Qed.

Lemma unreverse_twice (lengths : list nat) (t : list (list (list spec_float))) :
  (length lengths <= length t)%nat ->
  unreverse lengths (unreverse lengths t) = t.
Proof.
  unfold unreverse. revert t. induction lengths as [|l lengths IH]; intros t Hlen.
  - reflexivity.
  - destruct t as [|x t]; [simpl in Hlen; lia |].
    simpl. rewrite flip_prefix_twice. f_equal. apply IH. simpl in Hlen. lia.
Qed.

Section Realignment.

Context {W : Type}.
Variable self : EchoStateNetwork W.
Implicit Types w : world W.

(** X12.  The loop of lines 156-157 is its own inverse: run twice on the
    same tensor it leaves the tensor, and the whole world, as they were. *)
Theorem flip_loop_twice (r : nat) (lengths : list nat) (t : list (list (list spec_float))) w :
  heap w !! r = Some t ->
  (length lengths <= length t)%nat ->
  (_ ← for_each (enumerate lengths) (flip_in_place r);
   for_each (enumerate lengths) (flip_in_place r)) w
  = (inr tt, w).
Proof.
  intros Hr Hlen.
  rewrite (run_bind_ok _ _ _ _ _ (enumerate_flip_run r lengths t w Hr Hlen)).
  rewrite (enumerate_flip_run r lengths (unreverse lengths t)).
  - unfold with_heap. cbn [heap weights trace].
    rewrite list_insert_insert_eq, unreverse_twice, list_insert_id by assumption.
    rewrite world_eta. reflexivity.
  - simpl. apply list_lookup_insert_eq. eapply lookup_lt_Some, Hr.
  - rewrite <- (length_map length), unreverse_shape, length_map. exact Hlen.
Qed.

(** The loop stops with [IndexError] at the first sequence that the
    tensor does not have. *)
Lemma flip_loop_out_of_range (r : nat) (lengths : list nat) :
  forall (k : nat) (t : list (list (list spec_float))) w,
    heap w !! r = Some t ->
    (length t < k + length lengths)%nat ->
    lengths <> [] ->
    exists h, for_each (zip (seq k (length lengths)) lengths) (flip_in_place r) w
              = (inl IndexError, with_heap h w).
Proof.
  induction lengths as [|l lengths IH]; intros k t w Hr Hlen Hne; [congruence |].
  simpl length. simpl seq. simpl zip. rewrite for_each_cons, run_bind, flip_in_place_run.
  rewrite Hr. simpl default.
  destruct (t !! k) as [x |] eqn:Hx.
  - assert (Hk : (k < length t)%nat) by (eapply lookup_lt_Some, Hx).
    destruct lengths as [|l' lengths]; [simpl in Hlen; lia |].
    destruct (IH (S k) (<[k := torch.flip_prefix l x]> t)
                (with_heap (<[r := <[k := torch.flip_prefix l x]> t]> (heap w)) w))
      as [h Hh].
    + simpl. apply list_lookup_insert_eq. eapply lookup_lt_Some, Hr.
    + rewrite length_insert. simpl in *. lia.
    + discriminate.
    + exists h. rewrite Hh. reflexivity.
  - exists (heap w). unfold with_heap. rewrite world_eta. reflexivity.
Qed.

(** X13.  Bidirectional without pooling, on states whose shapes do not
    fit: more lengths than sequences in the reversed states raise
    [IndexError] in the loop; forward and reversed states of different
    batch or time sizes raise [RuntimeError] in [torch.cat].  In both
    cases the reduction has not been called. *)
Theorem bidirectional_without_pooling_raises
    (states r : nat) (fwd bwd : list (list (list spec_float)))
    (lengths : list nat) (texts : text) (additional_fts : value) w :
  bidirectional self = true ->
  ms.merging_strategy (merging_strategy self) = None ->
  heap w !! states = Some fwd ->
  heap w !! r = Some bwd ->
  let run := _apply_pooling_strategy self states lengths texts (Some r) additional_fts w in
  ((length bwd < length lengths)%nat -> fst run = inl IndexError /\ trace (snd run) = trace w)
  /\ ((length lengths <= length bwd)%nat -> torch.same_shape2 fwd bwd = false ->
      fst run = inl RuntimeError /\ trace (snd run) = trace w).
Proof.
  intros Hbi Htag Hs Hr run.
  pose proof (lookup_lt_Some _ _ _ Hs) as Hs_lt.
  assert (Hclone : clone (Some r) w = (inr (length (heap w)), with_heap (heap w ++ [bwd]) w)).
  { unfold clone. rewrite run_bind. unfold load. rewrite Hr. reflexivity. }
  split.
  - intros Hlen. unfold run, _apply_pooling_strategy. rewrite Hbi, Htag.
    rewrite (run_bind_ok _ _ _ _ _ Hclone).
    destruct (flip_loop_out_of_range (length (heap w)) lengths 0 bwd
                (with_heap (heap w ++ [bwd]) w)) as [h Hh].
    + simpl. apply list_lookup_middle. reflexivity.
    + lia.
    + destruct lengths; [simpl in Hlen; lia | discriminate].
    + unfold enumerate. rewrite (run_bind_err _ _ _ _ _ Hh). split; reflexivity.
  - intros Hlen Hshape. unfold run, _apply_pooling_strategy. rewrite Hbi, Htag.
    rewrite (run_bind_ok _ _ _ _ _ Hclone).
    assert (Hloop : for_each (enumerate lengths) (flip_in_place (length (heap w)))
                      (with_heap (heap w ++ [bwd]) w)
                    = (inr tt, with_heap (heap w ++ [unreverse lengths bwd]) w)).
    { rewrite (enumerate_flip_run (length (heap w)) lengths bwd); [| | exact Hlen].
      - unfold with_heap. simpl.
        replace (length (heap w)) with (length (heap w) + 0)%nat at 1 by lia.
        rewrite insert_app_r. reflexivity.
      - simpl. apply list_lookup_middle. reflexivity. }
    rewrite (run_bind_ok _ _ _ _ _ Hloop).
    rewrite run_bind. unfold load at 1. simpl.
    rewrite lookup_app_l, Hs by lia. simpl.
    rewrite run_bind. unfold load at 1. simpl.
    rewrite list_lookup_middle by reflexivity. simpl.
    rewrite run_bind, run_lift. unfold torch.cat_dim2.
    replace (torch.same_shape2 fwd (unreverse lengths bwd)) with false; [split; reflexivity |].
    symmetry. apply not_true_iff_false. intros Hsame. apply same_shape2_spec in Hsame.
    rewrite unreverse_shape in Hsame. apply same_shape2_spec in Hsame. congruence.
Qed.

End Realignment.

(** ** Reading a Keyed batch *)

Section KeyedBatch.

Context {W : Type}.
Variable self : EchoStateNetwork W.
Implicit Types w : world W.

(** X14.  A Keyed batch with a label tensor: when the key
    [additional_fts] is missing the local is [None]; when the key is
    there its value is taken as it is, and a value [None] is not treated
    as missing but raises [AttributeError] at [.to(device)]. *)
Theorem read_batch_additional_fts (d : gmap string value) (label : value) w :
  res.embedding_callable (layer self) = true ->
  d !! "labels" = Some label ->
  label <> VNone ->
  read_batch self (Keyed d) w
  = (match d !! "additional_fts" with
     | None => inr (TextBatch (Keyed d), label, Some VNone)
     | Some VNone => inl (AttributeError "to")
     | Some fts => inr (TextBatch (Keyed d), label, Some fts)
     end, w).
Proof.
  intros Hcall Hlabel Hnone. unfold read_batch. rewrite Hcall.
  rewrite run_bind, run_lift. unfold getitem. rewrite Hlabel.
  assert (Hto : (mret label ≫= to_device) = inr label)
    by (destruct label; [congruence | reflexivity ..]).
  rewrite Hto. cbv beta iota.
  rewrite run_bind, run_lift. unfold has_key.
  destruct (d !! "additional_fts") as [[| | |] |]; reflexivity.
Qed.

End KeyedBatch.

(** ** The rows that the predictions read *)

Lemma spans_take {A : Type} (lengths : list nat) (rows : list A) :
  spans lengths (take (sum_list lengths) rows) = spans lengths rows.
Proof.
  revert rows. induction lengths as [|l lengths IH]; intros rows; [reflexivity |].
  simpl. f_equal.
  - rewrite take_take. f_equal. lia.
  - rewrite <- (IH (drop l rows)). f_equal.
    rewrite skipn_firstn_comm. f_equal. lia.
Qed.

Section RowsRead.

Context {W : Type}.
Variable self : EchoStateNetwork W.
Implicit Types w : world W.

(** X15.  Without pooling the predictions only read the first
    [sum(lengths)] rows of the raw outputs: two raw outputs with the
    same number of columns that agree on these rows give the same
    predictions, or the same exception. *)
Theorem compute_predictions_rows_read (a : la.LearningAlgo W)
    (states states' : list (list spec_float)) (m m' : list (list spec_float)) (lengths : list nat) w :
  learning_algo self = Some a ->
  ms.merging_strategy (merging_strategy self) = None ->
  la.call a (weights w) states = Raw2 m ->
  la.call a (weights w) states' = Raw2 m' ->
  torch.size1 m = torch.size1 m' ->
  take (sum_list lengths) m = take (sum_list lengths) m' ->
  _compute_predictions self states lengths w = _compute_predictions self states' lengths w.
Proof.
  intros Hla Htag Hm Hm' Hsize Hrows. unfold _compute_predictions.
  rewrite !(run_bind_ok _ _ _ _ _ (learning_algo_call_run self a Hla _ w)).
  rewrite Htag, Hm, Hm', Hsize, !offset_slices_spans.
  rewrite <- (spans_take lengths m), <- (spans_take lengths m'), Hrows. reflexivity.
Qed.

End RowsRead.

(** ** The losses that gradient descent prints *)

(** The iterations and losses printed by a trace. *)
Definition loss_prints (t : list event) : list (Z * spec_float) :=
  omap (fun e => match e with Print (IterationLoss n l) => Some (n, l) | _ => None end) t.

Lemma loss_prints_app (t1 t2 : list event) :
  loss_prints (t1 ++ t2) = loss_prints t1 ++ loss_prints t2.
Proof. apply omap_app. Qed.

(** [recorded] with the number of the iteration beside each sample. *)
Fixpoint recorded_at (iter_steps n_iter : Z) (losses : list spec_float) : list (Z * spec_float) :=
  match losses with
  | [] => []
  | loss :: losses' =>
      if Z.eqb ((n_iter + 1) mod iter_steps) 0
      then (n_iter + 1, loss) :: recorded_at iter_steps (n_iter + 1) losses'
      else recorded_at iter_steps (n_iter + 1) losses'
  end.

Lemma recorded_at_snd (s n : Z) (l : list spec_float) : map snd (recorded_at s n l) = recorded s n l.
Proof.
  revert n. induction l as [|x l IH]; intros n; simpl; [reflexivity |].
  destruct (Z.eqb ((n + 1) mod s) 0); simpl; rewrite IH; reflexivity.
Qed.

Lemma recorded_at_app (s n : Z) (l1 l2 : list spec_float) :
  recorded_at s n (l1 ++ l2)
  = recorded_at s n l1 ++ recorded_at s (n + Z.of_nat (length l1)) l2.
Proof.
  revert n. induction l1 as [|x l1 IH]; intros n; simpl.
  - rewrite Z.add_0_r. reflexivity.
  - rewrite IH.
    replace (n + 1 + Z.of_nat (length l1)) with (n + Z.pos (Pos.of_succ_nat (length l1))) by lia.
    destruct (Z.eqb ((n + 1) mod s) 0); reflexivity.
Qed.

Lemma recorded_at_fst (s : Z) (l : list spec_float) :
  0 < s ->
  forall n, 0 <= n ->
    map fst (recorded_at s n l)
    = map (fun k => (n / s + Z.of_nat k + 1) * s) (seq 0 (length (recorded_at s n l))).
Proof.
  intros Hs. induction l as [|x l IH]; intros n Hn; [reflexivity |].
  simpl recorded_at. destruct (Z.eqb ((n + 1) mod s) 0) eqn:Hmod.
  - apply Z.eqb_eq in Hmod. destruct (div_succ_multiple s n Hs Hn Hmod) as [Hdiv Hmul].
    simpl length. simpl seq. simpl map. f_equal; [simpl; lia |].
    rewrite IH by lia. rewrite <- fmap_S_seq.
    change (map ?f (S <$> ?k)) with (f <$> (S <$> k)).
    rewrite <- list_fmap_compose. apply list_fmap_ext. intros i k _. simpl.
    rewrite Hdiv. lia.
  - apply Z.eqb_neq in Hmod. destruct (div_succ_other s n Hs Hn Hmod) as [Hdiv _].
    rewrite IH by lia. rewrite Hdiv. reflexivity.
Qed.

Section PrintedLosses.

Context {W : Type}.
Variable self : EchoStateNetwork W.
Implicit Types w : world W.

Variable a : la.LearningAlgo W.
Variable c : Criterion.
Variable o : Optimizer W.
Hypothesis Hcallable : res.embedding_callable (layer self) = true.
Hypothesis Hla : learning_algo self = Some a.
Hypothesis Hcriterion : criterion self = Some c.
Hypothesis Hoptimizer : optimizer self = Some o.

Lemma loss_prints_batch (b : batch) : loss_prints (batch_events self b) = [].
Proof.
  unfold batch_events, encode_events, pooling_events.
  destruct (bidirectional self); [destruct (ms.merging_strategy (merging_strategy self)) |];
    reflexivity.
Qed.

Lemma fit_GD_body_prints (iter_steps : Z) (loss_l : list spec_float) (n_iter : Z) (b : batch) w :
  iter_steps <> 0 ->
  iteration_defined self c b = true ->
  exists w',
    _fit_GD_body self iter_steps (loss_l, n_iter) b w
    = (inr (loss_l ++ recorded iter_steps n_iter [iteration_loss self a c b (weights w)],
            n_iter + 1), w')
    /\ weights w' = iteration_update self c o b (weights w)
    /\ loss_prints (trace w')
       = loss_prints (trace w)
         ++ recorded_at iter_steps n_iter [iteration_loss self a c b (weights w)].
Proof.
  intros Hsteps Hdef. apply andb_true_iff in Hdef as [Hdef Htarget].
  erewrite (fit_GD_body_prefix self Hcallable); [| exact Hdef | intros; reflexivity].
  cbv beta zeta.
  rewrite (run_bind_ok _ _ _ _ _ (learning_algo_call_run self a Hla _ _)).
  rewrite Hcriterion, Hoptimizer. simpl fmap at 1.
  unfold iteration_loss, iteration_update, target_or_empty, batch_target in *.
  assert (Hnz : Z.eqb iter_steps 0 = false) by (apply Z.eqb_neq; exact Hsteps).
  assert (Hone : forall x : spec_float,
            recorded iter_steps n_iter [x]
            = if Z.eqb ((n_iter + 1) mod iter_steps) 0 then [x] else []) by reflexivity.
  assert (Hat : forall x : spec_float,
            recorded_at iter_steps n_iter [x]
            = if Z.eqb ((n_iter + 1) mod iter_steps) 0 then [(n_iter + 1, x)] else [])
    by reflexivity.
  rewrite Hone, Hat.
  destruct (loss_cls c);
    [destruct (torch.one_hot (row_labels self b)) as [e | m]; [discriminate |]
    |destruct (torch.one_hot (row_labels self b)) as [e | m]; [discriminate |] |];
    cbv [fmap M_fmap result_fmap lift mbind M_bind mret M_ret get_weights set_weights
         after_batch weights print emit raise throw];
    rewrite Hnz; destruct (Z.eqb ((n_iter + 1) mod iter_steps) 0);
    eexists; (split; [try rewrite app_nil_r; reflexivity |]); (split; [reflexivity |]);
    cbn [trace]; rewrite ?loss_prints_app, loss_prints_batch; rewrite ?app_nil_r;
    reflexivity.
Qed.

Lemma fit_GD_loop_prints (iter_steps : Z) (bs : list batch) :
  iter_steps <> 0 ->
  Forall (fun b => iteration_defined self c b = true) bs ->
  forall (loss_l : list spec_float) (n_iter : Z) w,
  exists w',
    for_acc bs (_fit_GD_body self iter_steps) (loss_l, n_iter) w
    = (inr (loss_l ++ recorded iter_steps n_iter (losses self a c o bs (weights w)),
            n_iter + Z.of_nat (length bs)), w')
    /\ loss_prints (trace w')
       = loss_prints (trace w)
         ++ recorded_at iter_steps n_iter (losses self a c o bs (weights w)).
Proof.
  intros Hsteps. induction 1 as [|b bs Hb _ IH]; intros loss_l n_iter w.
  - exists w. simpl. rewrite !app_nil_r, Z.add_0_r. split; reflexivity.
  - destruct (fit_GD_body_prints iter_steps loss_l n_iter b w Hsteps Hb)
      as (w1 & Hrun & Hw1 & Hp1).
    destruct (IH (loss_l ++ recorded iter_steps n_iter [iteration_loss self a c b (weights w)])
                (n_iter + 1) w1) as (w' & Hloop & Hp').
    exists w'. rewrite for_acc_cons, (run_bind_ok _ _ _ _ _ Hrun), Hloop, Hp', Hp1, Hw1.
    simpl losses. simpl length.
    change (iteration_loss self a c b (weights w)
            :: losses self a c o bs (iteration_update self c o b (weights w)))
      with ([iteration_loss self a c b (weights w)]
            ++ losses self a c o bs (iteration_update self c o b (weights w))).
    rewrite recorded_app, recorded_at_app, <- !app_assoc. simpl length.
    split; [do 3 f_equal; lia | reflexivity].
Qed.

(** X16.  Every loss that gradient descent records is printed when it
    is recorded, with the number of its iteration: the [k]-th printed
    pair is the iteration [(k + 1) * iter_steps] and the [k]-th entry of
    the returned list.  No other loss is printed. *)
Theorem fit_GD_prints_recorded_losses
    (train_dataloader : nat -> list batch) (epochs iter_steps : Z) w :
  0 < iter_steps ->
  forallb (iteration_defined self c) (iterations train_dataloader epochs) = true ->
  exists loss_l,
    fst (_fit_GD self train_dataloader epochs iter_steps w) = inr (Some loss_l)
    /\ loss_prints (trace (snd (_fit_GD self train_dataloader epochs iter_steps w)))
       = loss_prints (trace w)
         ++ zip (map (fun k => (Z.of_nat k + 1) * iter_steps) (seq 0 (length loss_l))) loss_l.
Proof.
  intros Hsteps Hdef. apply forallb_Forall in Hdef.
  set (all := losses self a c o (iterations train_dataloader epochs) (weights w)).
  assert (Hrun : exists w2,
            _fit_GD self train_dataloader epochs iter_steps w
            = (inr (Some (recorded iter_steps 0 all)), w2)
            /\ loss_prints (trace w2)
               = loss_prints (trace w) ++ recorded_at iter_steps 0 all).
  { unfold _fit_GD. rewrite run_bind. unfold print at 1, emit at 1. cbv beta iota.
    rewrite run_bind, epochs_flat.
    destruct (fit_GD_loop_prints iter_steps _ ltac:(lia) Hdef [] 0
                {| heap := heap w; weights := weights w;
                   trace := trace w ++ [Print (Text "Performing gradient descent...")] |})
      as (w1 & Hloop & Hp1).
    fold (iterations train_dataloader epochs). rewrite Hloop. cbv beta iota.
    cbn [weights trace] in Hp1. fold all in Hp1. simpl app at 1.
    eexists. split; [reflexivity |].
    cbn [trace]. rewrite loss_prints_app, Hp1, loss_prints_app.
    change (loss_prints [Print (Text "Performing gradient descent...")]) with (@nil (Z * spec_float)).
    change (loss_prints [Print (Text "Training complete.")]) with (@nil (Z * spec_float)).
    rewrite !app_nil_r. reflexivity. }
  destruct Hrun as (w2 & Hrun & Hp2). rewrite Hrun. cbn [fst snd].
  exists (recorded iter_steps 0 all). split; [reflexivity |].
  rewrite Hp2. f_equal.
  rewrite <- (zip_fst_snd (recorded_at iter_steps 0 all)).
  change (?l .*1) with (map fst l). change (?l .*2) with (map snd l).
  rewrite recorded_at_fst, recorded_at_snd by lia.
  rewrite <- (length_map snd (recorded_at iter_steps 0 all)), recorded_at_snd.
  rewrite Z.div_0_l by lia. reflexivity.
Qed.

End PrintedLosses.

(** * The further properties on the small network *)

(** A network as the constructor builds it when no readout, criterion
    and optimizer are given. *)
Definition bare_network : EchoStateNetwork Z :=
  {| device := Toy.cpu; layer := Toy.keyed_layer;
     merging_strategy := Toy.pooling (Some "last"%string);
     learning_algo := None; criterion := None; optimizer := None; bidirectional := false |}.

(** A network with a readout and a criterion and no optimizer. *)
Definition no_optimizer : EchoStateNetwork Z :=
  {| device := Toy.cpu; layer := Toy.keyed_layer;
     merging_strategy := Toy.pooling (Some "last"%string);
     learning_algo := Some Toy.perceptron; criterion := Some Toy.cross_entropy;
     optimizer := None; bidirectional := false |}.

Definition five_batches : nat -> list batch :=
  fun _ => [Toy.labelled; Toy.labelled; Toy.labelled; Toy.labelled; Toy.labelled].

Lemma fit_GD_without_epochs_witness :
  _fit_GD unknown_readout five_batches (-3) 0 Toy.w0
  = (inr (Some []),
     printed [Text "Performing gradient descent..."; Text "Training complete."] Toy.w0).
Proof. apply (fit_GD_without_epochs unknown_readout five_batches (-3) 0 Toy.w0). lia. Defined.

Lemma fit_GD_zero_iter_steps_witness :
  _fit_GD unknown_readout five_batches 1 0 Toy.w0
  = (inl ZeroDivisionError,
     {| heap := heap (first_pooled unknown_readout Toy.labelled Toy.w0);
        weights := iteration_update unknown_readout Toy.cross_entropy Toy.sgd Toy.labelled
                     (weights Toy.w0);
        trace := trace (first_pooled unknown_readout Toy.labelled Toy.w0) |}).
Proof.
  apply (fit_GD_zero_iter_steps unknown_readout eq_refl five_batches 1 Toy.labelled
           [Toy.labelled; Toy.labelled; Toy.labelled; Toy.labelled]
           ltac:(lia) eq_refl ltac:(vm_compute; reflexivity)
           Toy.perceptron Toy.cross_entropy Toy.sgd Toy.w0);
    first [reflexivity | vm_compute; reflexivity].
Defined.

(** One step has been made when the division raises. *)
Example fit_GD_zero_iter_steps_weights :
  weights (snd (_fit_GD unknown_readout five_batches 1 0 Toy.w0)) = 1.
Proof. vm_compute. reflexivity. Qed.

Lemma fit_GD_missing_parts_witness :
  _fit_GD bare_network five_batches 1 100 Toy.w0
  = (inl TypeError, first_pooled bare_network Toy.labelled Toy.w0)
  /\ _fit_GD no_optimizer five_batches 1 100 Toy.w0
     = (inl (AttributeError "zero_grad"), first_pooled no_optimizer Toy.labelled Toy.w0)
  /\ weights (first_pooled no_optimizer Toy.labelled Toy.w0) = weights Toy.w0.
Proof.
  split; [| split].
  - apply (fit_GD_missing_parts bare_network eq_refl five_batches 1 Toy.labelled
             [Toy.labelled; Toy.labelled; Toy.labelled; Toy.labelled]
             ltac:(lia) eq_refl ltac:(vm_compute; reflexivity) 100 Toy.w0).
    reflexivity.
  - apply (fit_GD_missing_parts no_optimizer eq_refl five_batches 1 Toy.labelled
             [Toy.labelled; Toy.labelled; Toy.labelled; Toy.labelled]
             ltac:(lia) eq_refl ltac:(vm_compute; reflexivity) 100 Toy.w0)
      with (a := Toy.perceptron) (c := Toy.cross_entropy);
      first [reflexivity | vm_compute; reflexivity].
  - apply (fit_GD_missing_parts no_optimizer eq_refl five_batches 1 Toy.labelled
             [Toy.labelled; Toy.labelled; Toy.labelled; Toy.labelled]
             ltac:(lia) eq_refl ltac:(vm_compute; reflexivity) 100 Toy.w0).
Defined.

Lemma fit_GD_one_step_per_batch_witness :
  weights (snd (_fit_GD unknown_readout five_batches 50 100 Toy.w0))
  = fold_left (fun wt b => update Toy.sgd wt (final_states unknown_readout b)
                             (target_or_empty unknown_readout Toy.cross_entropy b))
      (concat (map five_batches (seq 0 (Z.to_nat 50)))) (weights Toy.w0).
Proof.
  apply (fit_GD_one_step_per_batch unknown_readout Toy.perceptron Toy.cross_entropy Toy.sgd
           five_batches 50 100 Toy.w0);
    evaluate.
Defined.

(** 250 steps, with the default interval and with an interval of 7. *)
Example fit_GD_250_steps :
  weights (snd (_fit_GD unknown_readout five_batches 50 100 Toy.w0)) = 250
  /\ weights (snd (_fit_GD unknown_readout five_batches 50 7 Toy.w0)) = 250.
Proof. split; vm_compute; reflexivity. Qed.

(** A batch with three labels for two sequences. *)
Definition mislabelled : batch :=
  Keyed (<["input_ids" := Toy.input_ids]> (<["labels" := VLabels [0; 0; 0]]> ∅)).

(** A batch of two sequences with a single label. *)
Definition one_label : batch :=
  Keyed (<["input_ids" := Toy.input_ids]> (<["labels" := VLabels [0]]> ∅)).

Lemma predict_over_loader_witness :
  let self := one_way_unpooled in
  let dataloader := [Toy.labelled; mislabelled] in
  let w := Toy.w0 in
  let agreed := sumZ (map (fun b => default 0 (compared self (weights w) b)) dataloader) in
  let counted := sumZ (map (fun b => Z.of_nat (length (batch_labels b))) dataloader) in
  let testing :=
    existsb (fun b => bool_decide (is_Some (compared self (weights w) b))) dataloader in
  let accuracy : result (option spec_float) :=
    if testing then Some <$> truediv (float (100 * agreed)) (float counted) else inr None in
  predict self dataloader true w
  = match accuracy with
    | inr accuracy =>
        (inr (concat (map (predicted self (weights w)) dataloader), accuracy),
         printed (if true && testing then [Accuracy accuracy] else [])
           (after_batches self dataloader w))
    | inl e => (inl e, after_batches self dataloader w)
    end
  /\ (testing = true -> counted = 0 -> accuracy = inl ZeroDivisionError)
  /\ (testing = true -> 0 < counted < 2 ^ 53 ->
        accuracy = inr (Some (SFdiv 53 1024 (float (100 * agreed)) (float counted))))
  /\ (forall b, length (predicted self (weights w) b) = length (batch_labels b) ->
        compared self (weights w) b
        = Some (agreements (predicted self (weights w) b) (batch_labels b)))
  /\ (forall b p, predicted self (weights w) b = [p] ->
        compared self (weights w) b = Some (occurrences p (batch_labels b)))
  /\ (forall b l, batch_labels b = [l] ->
        compared self (weights w) b = Some (occurrences l (predicted self (weights w) b)))
  /\ (forall b, length (predicted self (weights w) b) <> length (batch_labels b) ->
        length (predicted self (weights w) b) <> 1%nat ->
        length (batch_labels b) <> 1%nat ->
        compared self (weights w) b = None).
Proof.
  apply (predict_over_loader one_way_unpooled eq_refl [Toy.labelled; mislabelled] true Toy.w0);
    evaluate.
Defined.

(** The second batch has three labels for two predictions: it cannot be
    compared and still counts, one agreement out of five labels. *)
Example predict_mislabelled :
  fst (predict one_way_unpooled [Toy.labelled; mislabelled] true Toy.w0)
  = inr ([0; 0; 0; 0], Some (float 20)).
Proof. vm_compute. reflexivity. Qed.

(** One label for two predictions is broadcast: both predictions agree
    with it, and the accuracy is 200. *)
Example predict_one_label :
  fst (predict one_way_unpooled [one_label] true Toy.w0) = inr ([0; 0], Some (float 200)).
Proof. vm_compute. reflexivity. Qed.

(** One agreement out of three labels: the accuracy is the float64
    nearest to 100 / 3. *)
Example predict_third :
  fst (predict one_way_unpooled [mislabelled] true Toy.w0) = inr ([0; 0], None)
  /\ truediv (float (100 * 1)) (float 3)
     = inr (S754_finite false 4691249611844267 (-47)).
Proof. split; vm_compute; reflexivity. Qed.

Lemma flip_loop_twice_witness :
  (_ ← for_each (enumerate [2; 3]%nat) (flip_in_place 1);
   for_each (enumerate [2; 3]%nat) (flip_in_place 1)) encoded
  = (inr tt, encoded).
Proof.
  apply (flip_loop_twice 1 [2; 3]%nat (fst (Toy.reverse_forward (TextBatch Toy.with_features)))
           encoded).
  - reflexivity.
  - vm_compute. lia.
Defined.

Lemma bidirectional_without_pooling_raises_witness :
  let fwd := fst (Toy.forward (TextBatch Toy.with_features)) in
  let bwd := fst (Toy.reverse_forward (TextBatch Toy.with_features)) in
  let run := _apply_pooling_strategy both_ways_unpooled 0 [2; 3; 1]%nat
               (TextBatch Toy.with_features) (Some 1%nat) extra_features encoded in
  ((length bwd < length [2; 3; 1]%nat)%nat ->
   fst run = inl IndexError /\ trace (snd run) = trace encoded)
  /\ ((length [2; 3; 1]%nat <= length bwd)%nat -> torch.same_shape2 fwd bwd = false ->
      fst run = inl RuntimeError /\ trace (snd run) = trace encoded).
Proof.
  apply (bidirectional_without_pooling_raises both_ways_unpooled 0 1
           (fst (Toy.forward (TextBatch Toy.with_features)))
           (fst (Toy.reverse_forward (TextBatch Toy.with_features)))
           [2; 3; 1]%nat (TextBatch Toy.with_features) extra_features encoded);
    reflexivity.
Defined.

(** Three lengths for two sequences: the loop raises. *)
Example bidirectional_without_pooling_index_error :
  fst (_apply_pooling_strategy both_ways_unpooled 0 [2; 3; 1]%nat
         (TextBatch Toy.with_features) (Some 1%nat) extra_features encoded)
  = inl IndexError.
Proof. vm_compute. reflexivity. Qed.

Definition features_fields : gmap string value :=
  <["input_ids" := Toy.input_ids]>
    (<["labels" := VLabels [0; 1]]> (<["additional_fts" := VFeatures [[torch.float 7]; [torch.float 8]]]> ∅)).

Lemma read_batch_additional_fts_witness :
  read_batch ridge_readout (Keyed features_fields) Toy.w0
  = (inr (TextBatch (Keyed features_fields), VLabels [0; 1], Some extra_features), Toy.w0).
Proof.
  assert (Hlabel : features_fields !! "labels" = Some (VLabels [0; 1]))
    by (vm_compute; reflexivity).
  assert (Hnone : VLabels [0; 1] <> VNone) by discriminate.
  pose proof (read_batch_additional_fts ridge_readout features_fields (VLabels [0; 1]) Toy.w0
                eq_refl Hlabel Hnone) as H.
  rewrite H. vm_compute. reflexivity.
Defined.

Lemma compute_predictions_rows_read_witness :
  _compute_predictions one_way_unpooled token_scores [2; 3]%nat Toy.w0
  = _compute_predictions one_way_unpooled (token_scores ++ [[torch.float 9; torch.float 0]]) [2; 3]%nat Toy.w0.
Proof.
  apply (compute_predictions_rows_read one_way_unpooled Toy.logistic
           token_scores (token_scores ++ [[torch.float 9; torch.float 0]])
           (map (map (fun s => SFadd 24 128 s (torch.float 0))) token_scores)
           (map (map (fun s => SFadd 24 128 s (torch.float 0))) (token_scores ++ [[torch.float 9; torch.float 0]]))
           [2; 3]%nat Toy.w0);
    reflexivity.
Defined.

Lemma fit_GD_prints_recorded_losses_witness :
  exists loss_l,
    fst (_fit_GD unknown_readout five_batches 50 100 Toy.w0) = inr (Some loss_l)
    /\ loss_prints (trace (snd (_fit_GD unknown_readout five_batches 50 100 Toy.w0)))
       = loss_prints (trace Toy.w0)
         ++ zip (map (fun k => (Z.of_nat k + 1) * 100) (seq 0 (length loss_l))) loss_l.
Proof.
  apply (fit_GD_prints_recorded_losses unknown_readout Toy.perceptron Toy.cross_entropy Toy.sgd
           eq_refl eq_refl eq_refl eq_refl five_batches 50 100 Toy.w0);
    first [lia | vm_compute; reflexivity].
Defined.

Example fit_GD_printed :
  loss_prints (trace (snd (_fit_GD unknown_readout five_batches 50 100 Toy.w0)))
  = [(100, torch.float 101); (200, torch.float 201)].
Proof. vm_compute. reflexivity. Qed.
